(** * Overload pay calculator: the pipeline of [process_data] (src/peachy2.py)

    The development embeds the data-processing function [process_data] and
    its two local helpers [is_relevant_course] and [get_base_students], and
    states the properties of the specification over that embedding.

    Modelling choices.
    - A table (pandas DataFrame) is a list of column names together with a
      list of rows; a row is a dictionary from column name to cell.
    - A cell is text, a number, a boolean or the missing value NaN.  A
      number is the rational it denotes; infinite values are not modelled,
      cells and settings hold finite numbers only.
    - Arithmetic on a numeric column is that of float64: every operation
      rounds its exact result to the nearest binary64 number, a tie going
      to the even significand ([round64]); subnormal numbers are modelled,
      overflow to infinity is not.  The sums follow the libraries: pandas'
      grouped sum is a compensated (Kahan) sum in the order of the rows,
      numpy's sum of a column is its pairwise sum.
    - The whole numbers that [astype(int)] makes are int64: a cast out of
      range gives the least int64 (as numpy does on x86-64) and sums wrap
      around.  pandas keeps a column of whole numbers as int64 rather than
      float64; the two agree on whole numbers below 2^53.
    - A title or name is the string of the bytes of its UTF-8 encoding;
      the tests [in] with an ASCII keyword and [==] read the same on the
      bytes as on the characters.  Python's [str.upper] is not part of the
      repository: it is the section variable [str_upper].  [upper] is what
      it does on ASCII text: the letters a..z move to A..Z.
    - pandas' parser of numeric text is not part of the repository: it is
      the section variable [parse_number].
    - The two settings read from the sidebar, [pay_rate] and
      [number_of_weeks], are section variables as well. *)

From Stdlib Require Import Ascii String ZArith QArith Qcanon Qround Qabs Qpower Lia Lqa.
From stdpp Require Import base decidable option numbers list strings gmap fin_maps.

Open Scope string_scope.
Open Scope list_scope.
Close Scope Qc_scope.
Open Scope Z_scope.

(** ** Strings *)

(** [str.upper] on one ASCII character: the letters a..z move to A..Z. *)
Definition upper_ascii (c : ascii) : ascii :=
  let n := N_of_ascii c in
  if ((97 <=? n) && (n <=? 122))%N then ascii_of_N (n - 32) else c.

Fixpoint upper (s : string) : string :=
  match s with
  | "" => ""
  | String c rest => String (upper_ascii c) (upper rest)
  end.

(** Python's [needle in hay] on strings: [needle] starts at some position
    of [hay]. *)
Fixpoint str_in (needle hay : string) : bool :=
  String.prefix needle hay ||
  match hay with
  | "" => false
  | String _ rest => str_in needle rest
  end.

(** What [str_in] decides: [kw] occurs in [s] as a contiguous run. *)
Definition occurs (kw s : string) : Prop :=
  ∃ pre post, s = pre +:+ kw +:+ post.

(** A character of a title stands for the character [k] of a keyword when
    it is [k] itself or, [k] being one of A..Z, the small letter of [k]. *)
Definition same_letter (k c : ascii) : Prop :=
  c = k
  ∨ ((65 ≤ N_of_ascii k)%N ∧ (N_of_ascii k ≤ 90)%N
     ∧ N_of_ascii c = (N_of_ascii k + 32)%N).

(** [matches kw s]: [s] reads as the keyword [kw], letter case aside. *)
Fixpoint matches (kw s : string) : Prop :=
  match kw, s with
  | "", "" => True
  | String k kw, String c s => same_letter k c ∧ matches kw s
  | _, _ => False
  end.

(** A title mentions a keyword when the keyword occurs in it, letter case
    aside. *)
Definition mentions (kw title : string) : Prop :=
  ∃ pre mid post, title = pre +:+ mid +:+ post ∧ matches kw mid.

(** A keyword as the code writes them: no small letter in it. *)
Fixpoint no_small_letter (kw : string) : bool :=
  match kw with
  | "" => true
  | String c kw =>
      negb ((97 <=? N_of_ascii c) && (N_of_ascii c <=? 122))%N && no_small_letter kw
  end.

(** A title names one of the four kinds of course. *)
Definition keyword (t : string) : Prop :=
  mentions "MUSIC" t ∨ mentions "PHYS ED" t ∨ mentions "ART" t
  ∨ mentions "CREATIVE" t.

(** The test of line 55 on a title as [str.upper] gives it. *)
Definition has_keyword (u : string) : Prop :=
  occurs "MUSIC" u ∨ occurs "PHYS ED" u ∨ occurs "ART" u ∨ occurs "CREATIVE" u.

(** ** Cells *)

Inductive cell :=
  | Str (s : string)
  | Num (x : Qc)
  | Bool (b : bool)
  | NaN.

#[global] Instance cell_eq_dec : EqDecision cell.
Proof. solve_decision. Defined.

#[global] Instance cell_inhabited : Inhabited cell := populate NaN.

(** ** get_base_students (lines 71-82) *)

Definition get_base_students (str_upper : string → string) (title : cell) : Z :=
  match title with
  | Str title =>
      let title := str_upper title in
      if str_in "MIXED" title || str_in " 1" title || str_in " 2" title
         || str_in " 3" title then 23
      else if str_in " 4" title || str_in " 5" title then 26
      else if str_in "KINDER" title || str_in " K" title then 22
      else 23
  | _ => 23
  end.

(** ** Tables *)

(** One row of a table, as [to_dict('records')] gives it: a dictionary from
    column name to cell. *)
Abbreviation row := (gmap string cell).

Record frame := Frame { columns : list string; rows : list row }.

#[global] Instance frame_inhabited : Inhabited frame := populate (Frame [] []).

(** [r[col]]; a key the dictionary lacks reads as NaN, as in a DataFrame
    built from dictionaries with different keys. *)
Definition get (r : row) (col : string) : cell := default NaN (r !! col).

(** [col in df.columns] *)
Definition has_column (col : string) (df : frame) : bool :=
  bool_decide (col ∈ columns df).

(** [df[col] = f(row)] for every row: an existing column is overwritten, a
    new one is appended to the column list. *)
Definition assign (col : string) (f : row → cell) (df : frame) : frame :=
  {| columns := if has_column col df then columns df else columns df ++ [col];
     rows := (λ r, <[col := f r]> r) <$> rows df |}.

(** [df[mask]]: the rows that satisfy the mask, in order. *)
Definition select (mask : row → bool) (df : frame) : frame :=
  {| columns := columns df; rows := filter (λ r, mask r) (rows df) |}.

(** [pd.isna] on a cell. *)
Definition isna (c : cell) : bool :=
  match c with NaN => true | _ => false end.

(** [df.dropna(subset=cols)] *)
Definition dropna (subset : list string) (df : frame) : frame :=
  select (λ r, forallb (λ col, negb (isna (get r col))) subset) df.

(** [series.fillna(v)] on one cell. *)
Definition fillna (v : cell) (c : cell) : cell :=
  match c with NaN => v | _ => c end.

(** The number a cell of a numeric column holds (a boolean counts as 0 or
    1, as in Python); text and NaN hold none and read as 0. *)
Definition num (c : cell) : Qc :=
  match c with
  | Num x => x
  | Bool true => 1%Qc
  | _ => 0%Qc
  end.

(** The whole number an int64 cell holds. *)
Definition whole (c : cell) : Z := Qfloor (num c).

(** *** float64 *)

(** [numpy.rint]: the nearest integer, a tie going to the even one. *)
Definition rint (x : Q) : Z :=
  let lo := Qfloor x in
  match Qcompare (x - inject_Z lo) (1 # 2) with
  | Lt => lo
  | Gt => lo + 1
  | Eq => if Z.even lo then lo else lo + 1
  end.

(** The binary exponent of a positive rational [a]: the [e] with
    [2^e <= a < 2^(e+1)]. *)
Definition floor_log2 (a : Q) : Z :=
  let k := Z.log2 (Qnum a) - Z.log2 (Zpos (Qden a)) in
  if Qle_bool (2 ^ k) a then k else k - 1.

(** Rounding to binary64: the nearest number with a significand of 53 bits
    (fewer below 2^-1022, where the spacing stays 2^-1074), a tie going to
    the even significand. *)
Definition round64 (q : Q) : Q :=
  if Qeq_bool q 0 then 0%Q
  else
    let a := Qabs q in
    let ex := Z.max (floor_log2 a - 52) (-1074) in
    let m := rint (a / 2 ^ ex) in
    ((if Qle_bool 0 q then inject_Z m else inject_Z (- m)) * 2 ^ ex)%Q.

(** The float64 nearest to a rational: what a decimal literal, or the
    conversion of a whole number, denotes. *)
Definition f64 (q : Q) : Qc := Q2Qc (round64 q).

(** The four operations of float64. *)
Definition fadd (x y : Qc) : Qc := f64 (x + y).
Definition fsub (x y : Qc) : Qc := f64 (x - y).
Definition fmul (x y : Qc) : Qc := f64 (x * y).
Definition fdiv (x y : Qc) : Qc := f64 (x / y).

(** A rational that is a float64 number: a significand below 2^53 in
    absolute value times a power of two in the range of the format. *)
Definition is_f64 (x : Qc) : Prop :=
  ∃ m e : Z, Z.abs m < 2 ^ 53 ∧ -1074 ≤ e ≤ 971 ∧ (x == inject_Z m * 2 ^ e)%Q.

(** The value of a cell of a numeric column as a float64: a whole number of
    an int64 column is converted. *)
Definition to_float (c : cell) : Qc := f64 (num c).

(** [series.clip(lower=lo)] on one number. *)
Definition clip_lower (lo x : Qc) : Qc := if decide (x < lo)%Qc then lo else x.

(** *** int64 *)

Definition INT64_MIN : Z := - 2 ^ 63.

(** The int64 that a whole number is modulo 2^64. *)
Definition wrap64 (z : Z) : Z := (z + 2 ^ 63) mod 2 ^ 64 - 2 ^ 63.

(** [series.astype(int)] on one float64: the fractional part is dropped
    (rounding toward zero); a number out of the range of int64 gives the
    least int64. *)
Definition astype_int (x : Qc) : Z :=
  let z := Z.quot (Qnum x) (Zpos (Qden x)) in
  if (INT64_MIN <=? z) && (z <? 2 ^ 63) then z else INT64_MIN.

(** [series.round(2)] on one float64, as numpy does it: multiply by 100,
    round to the nearest integer, divide by 100. *)
Definition round2 (x : Qc) : Qc :=
  fdiv (Qc_of_Z (rint (fmul x (Qc_of_Z 100)))) (Qc_of_Z 100).

(** *** Sums *)

(** The sum of an int64 column, by a group or as a whole: it wraps
    around. *)
Definition int64_sum (cs : list cell) : Z := wrap64 (foldr Z.add 0 (whole <$> cs)).

(** One step of the compensated (Kahan) summation of pandas' grouped sum:
    the running sum and the running compensation take in [val]. *)
Definition kahan_step (acc : Qc * Qc) (val : Qc) : Qc * Qc :=
  let y := fsub val acc.2 in
  let t := fadd acc.1 y in
  (t, fsub (fsub t acc.1) y).

Definition kahan_sum (xs : list Qc) : Qc := (foldl kahan_step (0%Qc, 0%Qc) xs).1.

(** [groupby(...).sum()] on the float64 cells of one group, in the order of
    the rows. *)
Definition group_sum (cs : list cell) : Qc := kahan_sum (num <$> cs).

(** numpy's sum of less than eight numbers, or of the numbers left over:
    one after the other. *)
Definition seq_sum (init : Qc) (xs : list Qc) : Qc := foldl fadd init xs.

(** The eight running sums of numpy's unrolled loop: each takes every
    eighth number, as long as eight numbers are left. *)
Fixpoint lanes (fuel : nat) (r xs : list Qc) : list Qc * list Qc :=
  match fuel with
  | O => (r, xs)
  | S fuel =>
      if decide (8 ≤ length xs)%nat
      then lanes fuel (zip_with fadd r (take 8 xs)) (drop 8 xs)
      else (r, xs)
  end.

(** numpy's sum of 8 to 128 numbers. *)
Definition block_sum (xs : list Qc) : Qc :=
  let '(r, rest) := lanes (length xs) (take 8 xs) (drop 8 xs) in
  match r with
  | [r0; r1; r2; r3; r4; r5; r6; r7] =>
      seq_sum (fadd (fadd (fadd r0 r1) (fadd r2 r3))
                    (fadd (fadd r4 r5) (fadd r6 r7))) rest
  | _ => 0%Qc
  end.

(** numpy's pairwise summation: more than 128 numbers are split in two
    parts, the first of a length that is a multiple of eight.  The fuel is
    the number of splits allowed; the length is enough. *)
Fixpoint pairwise_sum (fuel : nat) (xs : list Qc) : Qc :=
  let n := length xs in
  if decide (n < 8)%nat then seq_sum 0%Qc xs
  else if decide (n ≤ 128)%nat then block_sum xs
  else
    match fuel with
    | O => 0%Qc
    | S fuel =>
        let n2 := (n / 2 - (n / 2) mod 8)%nat in
        fadd (pairwise_sum fuel (take n2 xs)) (pairwise_sum fuel (drop n2 xs))
    end.

(** [series.sum()] on a float64 column: numpy adds the pairwise sum to the
    initial value 0. *)
Definition series_sum (cs : list cell) : Qc :=
  fadd 0%Qc (pairwise_sum (length cs) (num <$> cs)).

(** The three kinds of row of the report. *)
Inductive row_kind := Detail | Summary | Blank.

#[global] Instance row_kind_eq_dec : EqDecision row_kind.
Proof. solve_decision. Defined.

(** Exceptions that the body of [process_data] can raise. *)
Inductive exn := TypeError | IndexError | KeyError | NameError.

(** What a run tells its caller: the three ways of returning [None], each
    with the message shown, or the dictionary of results (its tables by
    reference, the grand total by value). *)
Inductive report :=
  | MissingColumn (col : string)
  | NoRelevantCourses
  | ProcessingError (e : exn)
  | Results (data staff_totals : nat) (grand_total : Qc * Qc) (non_zero_data : nat).

(** ** The store of tables *)

(** DataFrame objects live in a store and are named by reference, so that an
    assignment to a column of a table is seen through every name of it. *)
Abbreviation store := (list frame).

Inductive flow (A : Type) :=
  | Normal (a : A)
  | Return (r : report)
  | Raise (e : exn).
Arguments Normal {A} a.
Arguments Return {A} r.
Arguments Raise {A} e.

Definition M (A : Type) : Type := store → flow A * store.

#[global] Instance M_ret : MRet M := λ A a s, (Normal a, s).
#[global] Instance M_bind : MBind M := λ A B f m s,
  match m s with
  | (Normal a, s') => f a s'
  | (Return r, s') => (Return r, s')
  | (Raise e, s') => (Raise e, s')
  end.

Definition load (r : nat) : M frame := λ s,
  match s !! r with
  | Some d => (Normal d, s)
  | None => (Raise NameError, s)
  end.

(** A new object. *)
Definition alloc (d : frame) : M nat := λ s, (Normal (length s), s ++ [d]).

(** An update of the object itself. *)
Definition modify (r : nat) (f : frame → frame) : M unit := λ s,
  match s !! r with
  | Some d => (Normal tt, <[r := f d]> s)
  | None => (Raise NameError, s)
  end.

Definition return_ {A} (r : report) : M A := λ s, (Return r, s).
Definition raise {A} (e : exn) : M A := λ s, (Raise e, s).

Definition when (b : bool) (m : M unit) : M unit := if b then m else mret tt.

Fixpoint for_each {A} (l : list A) (body : A → M unit) : M unit :=
  match l with
  | [] => mret tt
  | x :: l => body x;; for_each l body
  end.

(** [try: ... except Exception as e: st.error(...); return None] around a
    body that returns a report. *)
Definition try_except (body : M report) : store → report * store := λ s,
  match body s with
  | (Normal r, s') => (r, s')
  | (Return r, s') => (r, s')
  | (Raise e, s') => (ProcessingError e, s')
  end.

(** A step that may raise, run inside [M]. *)
Definition lift {A} (x : exn + A) : M A :=
  match x with
  | inl e => raise e
  | inr a => mret a
  end.

(** ** Sorting and grouping *)

Definition is_text (c : cell) : bool :=
  match c with Str _ => true | _ => false end.

Definition is_number (c : cell) : bool :=
  match c with Num _ | Bool _ => true | _ => false end.

(** The order [sort_values] and [groupby] put on keys: text by character
    code, numbers by value, NaN last.  Text is never compared with a number:
    Python raises [TypeError] there (see [sort_values]). *)
Definition key_leb (a b : cell) : bool :=
  match a, b with
  | _, NaN => true
  | NaN, _ => false
  | Str s, Str t => String.leb s t
  | Str _, _ => false
  | _, Str _ => true
  | _, _ => bool_decide (num a ≤ num b)%Qc
  end.

(** A stable sort: each element goes before the first element of the
    sorted rest that is not below it, so elements with equal keys keep the
    order they came in. *)
Fixpoint insert_sorted {A} (leb : A → A → bool) (x : A) (l : list A) : list A :=
  match l with
  | [] => [x]
  | y :: l' => if leb x y then x :: l else y :: insert_sorted leb x l'
  end.

Definition stable_sort {A} (leb : A → A → bool) (l : list A) : list A :=
  foldr (insert_sorted leb) [] l.

Definition sort_rows (col : string) (rs : list row) : list row :=
  stable_sort (λ r1 r2, key_leb (get r1 col) (get r2 col)) rs.

Definition column (col : string) (rs : list row) : list cell :=
  (λ r, get r col) <$> rs.

Definition sorted_by (col : string) (df : frame) : frame :=
  {| columns := columns df; rows := sort_rows col (rows df) |}.

(** [df.sort_values(col)]: a new table; rows with equal keys keep the
    order they had. *)
Definition sort_values (col : string) (df : frame) : exn + frame :=
  let keys := column col (rows df) in
  if existsb is_text keys && existsb is_number keys then inl TypeError
  else inr (sorted_by col df).

(** The keys of [df.groupby(col)]: the distinct values of the column, NaN
    left out, in ascending order. *)
Definition group_keys (col : string) (df : frame) : list cell :=
  stable_sort key_leb
    (remove_dups (filter (λ k, k ≠ NaN) (column col (rows df)))).

(** The rows of one group, in the order of the table. *)
Definition group (col : string) (df : frame) (k : cell) : list row :=
  filter (λ r, get r col = k) (rows df).

Definition groupby (col : string) (df : frame) : list (cell * list row) :=
  (λ k, (k, group col df k)) <$> group_keys col df.

(** [df.groupby("Staff Name").agg({"Total Overload": "sum",
    "Overload Pay": "sum"}).reset_index()]: the overloads are int64, the
    pays float64. *)
Definition staff_total_row (g : cell * list row) : row :=
  <["Staff Name" := g.1]>
  (<["Total Overload" := Num (Qc_of_Z (int64_sum (column "Total Overload" g.2)))]>
  (<["Overload Pay" := Num (group_sum (column "Overload Pay" g.2))]> ∅)).

Definition agg_sum (df : frame) : frame :=
  {| columns := ["Staff Name"; "Total Overload"; "Overload Pay"];
     rows := staff_total_row <$> groupby "Staff Name" df |}.

(** Lines 105-108: the dictionary [grand_total], as a pair
    (totalOverload, overloadPay). *)
Definition grand_total (staff_totals : frame) : Qc * Qc :=
  (Qc_of_Z (int64_sum (column "Total Overload" (rows staff_totals))),
   series_sum (column "Overload Pay" (rows staff_totals))).

(** ** Rows of the report (lines 111-139) *)

Definition summary_row (staff_name : cell) (summary : row) : row :=
  list_to_map
    [("Year", Str ""); ("Organization", Str ""); ("Course Title", Str "TOTAL");
     ("Staff Name", staff_name); ("Total Students", Str "");
     ("Base Students", Str "");
     ("Total Overload", get summary "Total Overload");
     ("Overload Pay", get summary "Overload Pay");
     ("isSummary", Bool true)].

Definition blank_row (cols : list string) : row :=
  <["isBlank" := Bool true]> (list_to_map ((λ col, (col, Str "")) <$> cols)).

(** The keys of each kind of dictionary, in insertion order. *)
Definition record_keys (cols : list string) (k : row_kind) : list string :=
  match k with
  | Detail => cols
  | Summary =>
      ["Year"; "Organization"; "Course Title"; "Staff Name"; "Total Students";
       "Base Students"; "Total Overload"; "Overload Pay"; "isSummary"]
  | Blank => if bool_decide ("isBlank" ∈ cols) then cols else cols ++ ["isBlank"]
  end.

Definition add_key (acc : list string) (k : string) : list string :=
  if bool_decide (k ∈ acc) then acc else acc ++ [k].

(** [pd.DataFrame(final_data)]: the columns are the keys met, in order of
    first appearance; a key a dictionary lacks reads as NaN. *)
Definition DataFrame (cols : list string) (final_data : list (row_kind * row)) : frame :=
  {| columns := foldl (λ acc kr, foldl add_key acc (record_keys cols kr.1)) [] final_data;
     rows := snd <$> final_data |}.

(** The loop of lines 114-136 over the groups: the courses of the staff
    member, the summary row, a blank row.  Each dictionary carries the kind
    of row it is. *)
Fixpoint report_rows (staff_totals : frame) (cols : list string)
    (groups : list (cell * list row)) : exn + list (row_kind * row) :=
  match groups with
  | [] => inr []
  | (staff_name, g) :: groups =>
      match head (filter (λ r, get r "Staff Name" = staff_name) (rows staff_totals)) with
      | None => inl IndexError
      | Some summary =>
          match report_rows staff_totals cols groups with
          | inl e => inl e
          | inr rest =>
              inr (((λ r, (Detail, r)) <$> g)
                   ++ [(Summary, summary_row staff_name summary); (Blank, blank_row cols)]
                   ++ rest)
          end
      end
  end.

(** The rows of one kind. *)
Definition of_kind (k : row_kind) (final_data : list (row_kind * row)) : list row :=
  snd <$> filter (λ kr, kr.1 = k) final_data.


(** ** Comparisons on cells (lines 147-151) *)

(** [x == True] on one element of a column. *)
Definition eq_true (c : cell) : bool :=
  match c with
  | Bool b => b
  | Num x => bool_decide (x = 1%Qc)
  | _ => false
  end.

(** [x > 0] on one element: NaN compares false, text cannot be ordered
    against a number and Python raises [TypeError] ([None] here). *)
Definition gt_zero (c : cell) : option bool :=
  match c with
  | Num x => Some (bool_decide (0 < x)%Qc)
  | Bool b => Some b
  | NaN => Some false
  | Str _ => None
  end.

(** [final_df[(final_df["isBlank"] == True) | (final_df["isSummary"] == True)
    | (final_df["Total Overload"] > 0)].copy()] *)
Definition non_zero_rows (final_df : frame) : exn + frame :=
  if negb (has_column "Total Overload" final_df) then inl KeyError
  else
    match mapM (λ r, gt_zero (get r "Total Overload")) (rows final_df) with
    | None => inl TypeError
    | Some positive =>
        let mask :=
          zip_with (λ r gt, eq_true (get r "isBlank") || eq_true (get r "isSummary") || gt)
            (rows final_df) positive in
        inr {| columns := columns final_df;
               rows := fst <$> filter (λ rm, rm.2 = true) (zip (rows final_df) mask) |}
    end.

(** The table of lines 139-145 as lines 142-145 leave it: the two flag
    columns are added when no dictionary had them. *)
Definition flagged (fd : frame) : frame :=
  let fd1 := if negb (has_column "isBlank" fd)
             then assign "isBlank" (λ _, Bool false) fd else fd in
  if negb (has_column "isSummary" fd1)
  then assign "isSummary" (λ _, Bool false) fd1 else fd1.

Definition required_columns : list string :=
  ["Course Title"; "Staff Name"; "Total Students"].

(** ** process_data (lines 28-169) *)

Section Pipeline.

(** Python's [str.upper]. *)
Variable str_upper : string → string.
(** pandas' reading of a text as a number, [None] when it is not one. *)
Variable parse_number : string → option Qc.
(** The sidebar settings: the rate is a float64, the weeks a whole
    number. *)
Variable pay_rate : Qc.
Variable number_of_weeks : Z.

(** [pd.to_numeric(..., errors='coerce')] on one cell. *)
Definition to_numeric (c : cell) : cell :=
  match c with
  | Str s => match parse_number s with Some x => Num x | None => NaN end
  | Num x => Num x
  | Bool b => Num (if b then 1%Qc else 0%Qc)
  | NaN => NaN
  end.

(** Lines 50-62.  [df] is the table the name is bound to when the filter
    runs (the result of [dropna]). *)
Definition is_relevant_course (df : frame) (title : cell) : bool :=
  match title with
  | Str title =>
      let title := str_upper title in
      if negb (str_in "MUSIC" title || str_in "PHYS ED" title
               || str_in "ART" title || str_in "CREATIVE" title)
      then false
      else
        match head (filter (λ r, get r "Course Title" = Str title) (rows df)) with
        | Some r => default false (gt_zero (to_numeric (get r "Total Students")))
        | None => false
        end
  | _ => false
  end.

(** *** The columns written by lines 38-44 and 84-94 *)

Definition coerced (col : string) (r : row) : cell := to_numeric (get r col).

Definition filled (col : string) (r : row) : cell := fillna (Num 0%Qc) (get r col).

Definition base_students (r : row) : cell :=
  Num (Qc_of_Z (get_base_students str_upper (get r "Course Title"))).

Definition total_overload (r : row) : cell :=
  Num (Qc_of_Z (astype_int
               (clip_lower 0%Qc
                  (fsub (to_float (get r "Total Students"))
                        (to_float (get r "Base Students")))))).

(** The product is taken from the left: overload by rate, then by weeks. *)
Definition overload_pay (r : row) : cell :=
  Num (round2 (fmul (fmul (to_float (get r "Total Overload")) pay_rate)
                    (f64 (inject_Z number_of_weeks)))).

(** *** The six stages *)

(** Lines 31-35. *)
Definition validate (df : nat) : M unit :=
  for_each required_columns (λ col,
    d ← load df;
    if has_column col d then mret tt else return_ (MissingColumn col)).

(** Lines 38-47.  The columns are assigned in the table passed in; line 47
    binds the name [df] to a new table, whose reference is returned. *)
Definition normalize (df : nat) : M nat :=
  for_each ["Total Students"; "Max Students"] (λ col,
    d ← load df;
    when (has_column col d) (modify df (assign col (coerced col))));;
  d ← load df;
  when (has_column "Total Students" d)
    (modify df (assign "Total Students" (filled "Total Students")));;
  d ← load df;
  alloc (dropna ["Course Title"; "Total Students"] d).

(** Lines 50-68. *)
Definition filter_relevant (df : nat) : M nat :=
  d ← load df;
  relevant_courses ←
    alloc (select (λ r, is_relevant_course d (get r "Course Title")) d);
  rc ← load relevant_courses;
  if bool_decide (rows rc = []) then return_ NoRelevantCourses
  else mret relevant_courses.

(** Lines 71-84. *)
Definition resolve_thresholds (relevant_courses : nat) : M unit :=
  modify relevant_courses (assign "Base Students" base_students).

(** Lines 87-94. *)
Definition calculate_overload (relevant_courses : nat) : M unit :=
  modify relevant_courses
    (assign "Total Students"
       (λ r, fillna (Num 0%Qc) (coerced "Total Students" r)));;
  modify relevant_courses
    (assign "Base Students"
       (λ r, fillna (Num 0%Qc) (coerced "Base Students" r)));;
  modify relevant_courses (assign "Total Overload" total_overload);;
  modify relevant_courses (assign "Overload Pay" overload_pay).

(** Lines 97-165. *)
Definition aggregate (relevant_courses : nat) : M report :=
  (* line 97 *)
  rc ← load relevant_courses;
  sorted ← lift (sort_values "Staff Name" rc);
  relevant_courses ← alloc sorted;
  (* lines 100-102 *)
  rc ← load relevant_courses;
  staff_totals ← alloc (agg_sum rc);
  (* lines 105-108 *)
  st ← load staff_totals;
  let grand_total := grand_total st in
  (* lines 111-139 *)
  final_data ← lift (report_rows st (columns rc) (groupby "Staff Name" rc));
  final_df ← alloc (DataFrame (columns rc) final_data);
  (* lines 142-145 *)
  fd ← load final_df;
  when (negb (has_column "isBlank" fd))
    (modify final_df (assign "isBlank" (λ _, Bool false)));;
  fd ← load final_df;
  when (negb (has_column "isSummary" fd))
    (modify final_df (assign "isSummary" (λ _, Bool false)));;
  (* lines 147-151 *)
  fd ← load final_df;
  non_zero ← lift (non_zero_rows fd);
  non_zero_df ← alloc non_zero;
  (* lines 153-158 only show a hint in the sidebar *)
  (* lines 160-165 *)
  mret (Results final_df staff_totals grand_total non_zero_df).

Definition process_data (df : nat) : M report :=
  validate df;;
  df ← normalize df;
  relevant_courses ← filter_relevant df;
  resolve_thresholds relevant_courses;;
  calculate_overload relevant_courses;;
  aggregate relevant_courses.

(** A run: the body under its [try ... except Exception]. *)
Definition run (df : nat) (s : store) : report * store :=
  try_except (process_data df) s.

(** *** The tables the stages leave in the store *)

(** The table passed in, after lines 38-44. *)
Definition coerce_column (d : frame) (col : string) : frame :=
  if has_column col d then assign col (coerced col) d else d.

Definition normalized (d : frame) : frame :=
  let d := foldl coerce_column d ["Total Students"; "Max Students"] in
  if has_column "Total Students" d
  then assign "Total Students" (filled "Total Students") d else d.

(** The table of line 47. *)
Definition cleaned (d : frame) : frame :=
  dropna ["Course Title"; "Total Students"] (normalized d).

(** The table of line 64, from the one of line 47. *)
Definition relevant (d : frame) : frame :=
  select (λ r, is_relevant_course d (get r "Course Title")) d.

(** [relevant_courses] after line 84. *)
Definition with_thresholds (rc : frame) : frame :=
  assign "Base Students" base_students rc.

(** [relevant_courses] after lines 87-94. *)
Definition with_overload (rc : frame) : frame :=
  assign "Overload Pay" overload_pay
    (assign "Total Overload" total_overload
       (assign "Base Students" (λ r, fillna (Num 0%Qc) (coerced "Base Students" r))
          (assign "Total Students" (λ r, fillna (Num 0%Qc) (coerced "Total Students" r))
             rc))).

Definition calculated (rc : frame) : frame := with_overload (with_thresholds rc).

(** [staff_totals], from [relevant_courses] as the filter left it. *)
Definition staff_totals (rc : frame) : frame :=
  agg_sum (sorted_by "Staff Name" (calculated rc)).

End Pipeline.

(** ** Sample inputs *)

(** A reader of unsigned decimal integers, a small part of what pandas
    accepts; enough for the sample tables. *)
Definition digit (c : ascii) : option Z :=
  let n := Z.of_N (N_of_ascii c) in
  if (48 <=? n) && (n <=? 57) then Some (n - 48) else None.

Fixpoint parse_digits (acc : Z) (s : string) : option Z :=
  match s with
  | "" => Some acc
  | String c rest =>
      match digit c with
      | Some d => parse_digits (10 * acc + d) rest
      | None => None
      end
  end.

Definition parse_decimal (s : string) : option Qc :=
  match s with
  | "" => None
  | _ => Qc_of_Z <$> parse_digits 0 s
  end.

Definition record (fields : list (string * cell)) : row := list_to_map fields.

Definition course (title staff : string) (students : cell) : row :=
  record [("Course Title", Str title); ("Staff Name", Str staff);
          ("Total Students", students)].

Definition roster (rs : list row) : frame :=
  {| columns := ["Course Title"; "Staff Name"; "Total Students"]; rows := rs |}.

(** Scenario A of the specification. *)
Definition roster_A : frame := roster [course "PHYS ED 3" "J. Doe" (Num (Qc_of_Z 30))].

(** The float64 of the literal 1.25, which it is exactly. *)
Definition rate_125 : Qc := f64 (125 # 100).



(** A roster with the optional Max Students column, its cell not a number. *)
Definition roster_max : frame :=
  {| columns := ["Course Title"; "Staff Name"; "Total Students"; "Max Students"];
     rows := [<["Max Students" := Str "n/a"]>
                (course "ART 1" "J. Doe" (Num (Qc_of_Z 24)))] |}.

(** A roster whose enrollment cell is not a number. *)
Definition roster_text : frame := roster [course "ART 1" "J. Doe" (Str "n/a")].

(** A table without the Staff Name and Total Students columns. *)
Definition roster_titles_only : frame :=
  {| columns := ["Course Title"; "Year"];
     rows := [record [("Course Title", Str "ART 1"); ("Year", Str "2024")]] |}.

(** A roster whose title is not in upper case. *)
Definition roster_lower : frame :=
  roster [course "Music 1" "A. Smith" (Num (Qc_of_Z 30))].

(** Two rows whose titles differ by letter case only; the one in lower case
    comes first and has students, the one in upper case has none. *)
Definition roster_twins : frame :=
  roster [course "Art 1" "A. Smith" (Num (Qc_of_Z 30));
          course "ART 1" "B. Jones" (Num (Qc_of_Z 0))].

(** The same titles, the row in upper case now with students and the one
    in lower case with none. *)
Definition roster_twins_swapped : frame :=
  roster [course "Art 1" "A. Smith" (Num (Qc_of_Z 0));
          course "ART 1" "B. Jones" (Num (Qc_of_Z 30))].





(** * Properties *)

(** ** Strings *)

#[local] Arguments String.append !_ _ / : simpl nomatch.

Lemma prefix_app (p s : string) :
  String.prefix p s = true ↔ ∃ post, s = p +:+ post.
Proof.
  revert s. induction p as [|c p IH]; intros s.
  - split; [intros _; by exists s | by destruct s].
  - destruct s as [|c' s]; simpl.
    + split; [done | intros [post H]; discriminate H].
    + destruct (ascii_dec c c') as [->|Hne].
      * rewrite IH. split.
        -- intros [post ->]. by exists post.
        -- intros [post H]. injection H as ->. by exists post.
      * split; [done | intros [post H]; injection H as -> _; by destruct Hne].
Qed.

Lemma str_in_nil (kw : string) : str_in kw "" = String.prefix kw "".
Proof. unfold str_in. apply orb_false_r. Qed.

Lemma str_in_cons (kw : string) (c : ascii) (s : string) :
  str_in kw (String c s) = String.prefix kw (String c s) || str_in kw s.
Proof. reflexivity. Qed.

Lemma str_in_occurs (kw s : string) : str_in kw s = true ↔ occurs kw s.
Proof.
  unfold occurs. induction s as [|c s IH].
  - rewrite str_in_nil, prefix_app. split.
    + intros [post H]. by exists "", post.
    + intros ([|c pre] & post & H); [by exists post | discriminate H].
  - rewrite str_in_cons, orb_true_iff, prefix_app, IH. split.
    + intros [[post H] | (pre & post & ->)].
      * by exists "", post.
      * by exists (String c pre), post.
    + intros ([|c' pre] & post & H).
      * left. by exists post.
      * right. injection H as -> ->. by exists pre, post.
Qed.

Lemma str_in_not_occurs (kw s : string) : str_in kw s = false ↔ ¬ occurs kw s.
Proof. rewrite <- str_in_occurs. by destruct (str_in kw s). Qed.

Lemma upper_app (a b : string) : upper (a +:+ b) = upper a +:+ upper b.
Proof. induction a as [|c a IH]; simpl; [done | by rewrite IH]. Qed.

Lemma upper_split (t a b : string) :
  upper t = a +:+ b → ∃ a' b', t = a' +:+ b' ∧ upper a' = a ∧ upper b' = b.
Proof.
  revert t. induction a as [|c a IH]; intros t H; simpl in H.
  - by exists "", t.
  - destruct t as [|c' t]; [discriminate H |].
    simpl in H. injection H as <- H.
    destruct (IH _ H) as (a' & b' & -> & <- & <-).
    by exists (String c' a'), b'.
Qed.

(** [upper_ascii] sends to a character that is not a small letter the
    characters that stand for it, and no other. *)
Lemma upper_ascii_same_letter (k c : ascii) :
  ((97 <=? N_of_ascii k) && (N_of_ascii k <=? 122))%N = false →
  upper_ascii c = k ↔ same_letter k c.
Proof.
  intros Hk. unfold upper_ascii, same_letter.
  pose proof (N_ascii_bounded c) as Hc.
  destruct ((97 <=? N_of_ascii c) && (N_of_ascii c <=? 122))%N eqn:E.
  - apply andb_true_iff in E as [E1%N.leb_le E2%N.leb_le]. split.
    + intros <-. right. rewrite N_ascii_embedding by lia. lia.
    + intros [-> | (H1 & H2 & H3)].
      * apply andb_false_iff in Hk as [Hk%N.leb_gt | Hk%N.leb_gt]; lia.
      * replace (N_of_ascii c - 32)%N with (N_of_ascii k) by lia.
        apply ascii_N_embedding.
  - split.
    + intros <-. by left.
    + intros [-> | (H1 & H2 & H3)]; [done |].
      apply andb_false_iff in E as [E%N.leb_gt | E%N.leb_gt]; lia.
Qed.

Lemma upper_matches (kw s : string) :
  no_small_letter kw = true → upper s = kw ↔ matches kw s.
Proof.
  revert s. induction kw as [|k kw IH]; intros s Hkw.
  - destruct s; simpl; split; done.
  - simpl in Hkw. apply andb_true_iff in Hkw as [Hk%negb_true_iff Hkw].
    destruct s as [|c s]; simpl; [split; done |].
    rewrite <- (IH s Hkw), <- (upper_ascii_same_letter k c Hk). split.
    + by intros [= -> ->].
    + by intros [-> ->].
Qed.

(** Mentioning a keyword is the test the code makes on the title that
    [upper] gives. *)
Lemma str_in_upper_mentions (kw title : string) :
  no_small_letter kw = true →
  str_in kw (upper title) = true ↔ mentions kw title.
Proof.
  intros Hkw. rewrite str_in_occurs. unfold occurs, mentions. split.
  - intros (pre & post & H).
    apply upper_split in H as (pre' & rest & -> & <- & H).
    apply upper_split in H as (mid & post' & -> & Hmid & <-).
    exists pre', mid, post'. split; [done |]. by apply upper_matches.
  - intros (pre & mid & post & -> & Hm).
    apply upper_matches in Hm; [| done]. subst kw.
    exists (upper pre), (upper post). by rewrite !upper_app.
Qed.

Lemma occurs_upper_mentions (kw title : string) :
  no_small_letter kw = true → occurs kw (upper title) ↔ mentions kw title.
Proof. intros Hkw. by rewrite <- str_in_occurs, str_in_upper_mentions. Qed.

(** ** Threshold resolver *)

(** The rule ladder of lines 75-82, on the tests themselves. *)
Lemma ladder (b1 b2 b3 b4 b5 b6 b7 b8 : bool) (P1 P2 P3 P4 P5 P6 P7 P8 : Prop) :
  (b1 = true ↔ P1) → (b2 = true ↔ P2) → (b3 = true ↔ P3) → (b4 = true ↔ P4) →
  (b5 = true ↔ P5) → (b6 = true ↔ P6) → (b7 = true ↔ P7) → (b8 = true ↔ P8) →
  let n := if b1 || b2 || b3 || b4 then 23
           else if b5 || b6 then 26 else if b7 || b8 then 22 else 23 in
  let rule1 := P1 ∨ P2 ∨ P3 ∨ P4 in
  let rule2 := P5 ∨ P6 in
  let rule3 := P7 ∨ P8 in
  (rule1 → n = 23)
  ∧ (¬ rule1 → rule2 → n = 26)
  ∧ (¬ rule1 → ¬ rule2 → rule3 → n = 22)
  ∧ (¬ rule1 → ¬ rule2 → ¬ rule3 → n = 23).
Proof.
  intros H1 H2 H3 H4 H5 H6 H7 H8. cbv zeta.
  rewrite <- H1, <- H2, <- H3, <- H4, <- H5, <- H6, <- H7, <- H8.
  rewrite <- !orb_true_iff, !orb_assoc.
  destruct (b1 || b2 || b3 || b4), (b5 || b6), (b7 || b8);
    repeat split; intros; try reflexivity; exfalso; intuition congruence.
Qed.

(** C2. The base class size follows the first rule that matches the title
    as [str.upper] gives it: MIXED or " 1", " 2", " 3" give 23; otherwise
    " 4" or " 5" give 26; otherwise KINDER or " K" give 22; otherwise 23.
    Where [str.upper] is the ASCII one, the rules read on the title itself,
    letter case aside.  A title that is not text gives 23.  "MUSIC KINDER"
    gives 22, and so does "music kinder"; "Art Mixed 4" gives 23, "art 4"
    gives 26 and "Music k" gives 22. *)
Theorem get_base_students_first_match (str_upper : string → string) (title : cell) :
  (∀ t, title = Str t →
     let u := str_upper t in
     let rule1 := occurs "MIXED" u ∨ occurs " 1" u ∨ occurs " 2" u
                  ∨ occurs " 3" u in
     let rule2 := occurs " 4" u ∨ occurs " 5" u in
     let rule3 := occurs "KINDER" u ∨ occurs " K" u in
     (rule1 → get_base_students str_upper title = 23)
     ∧ (¬ rule1 → rule2 → get_base_students str_upper title = 26)
     ∧ (¬ rule1 → ¬ rule2 → rule3 → get_base_students str_upper title = 22)
     ∧ (¬ rule1 → ¬ rule2 → ¬ rule3 → get_base_students str_upper title = 23))
  ∧ (∀ t, title = Str t → str_upper t = upper t →
     let rule1 := mentions "MIXED" t ∨ mentions " 1" t ∨ mentions " 2" t
                  ∨ mentions " 3" t in
     let rule2 := mentions " 4" t ∨ mentions " 5" t in
     let rule3 := mentions "KINDER" t ∨ mentions " K" t in
     (rule1 → get_base_students str_upper title = 23)
     ∧ (¬ rule1 → rule2 → get_base_students str_upper title = 26)
     ∧ (¬ rule1 → ¬ rule2 → rule3 → get_base_students str_upper title = 22)
     ∧ (¬ rule1 → ¬ rule2 → ¬ rule3 → get_base_students str_upper title = 23))
  ∧ ((∀ t, title ≠ Str t) → get_base_students str_upper title = 23)
  ∧ get_base_students upper (Str "MUSIC KINDER") = 22
  ∧ get_base_students upper (Str "music kinder") = 22
  ∧ get_base_students upper (Str "Art Mixed 4") = 23
  ∧ get_base_students upper (Str "art 4") = 26
  ∧ get_base_students upper (Str "Music k") = 22
  ∧ mentions "KINDER" "music kinder"
  ∧ ¬ occurs "KINDER" "music kinder".
Proof.
  split_and!; try reflexivity.
  - intros t ->. unfold get_base_students. apply ladder; apply str_in_occurs.
  - intros t -> Hup. unfold get_base_students. rewrite Hup.
    apply ladder; by apply str_in_upper_mentions.
  - intros H. destruct title; try reflexivity. by destruct (H s).
  - exists "music ", "kinder", "". split; [reflexivity |].
    simpl. unfold same_letter. repeat split; right; vm_compute; repeat split; congruence.
  - apply str_in_not_occurs. reflexivity.
Qed.

(** ** Lists and rows *)

Lemma head_filter_first {A} (P : A → Prop) `{!∀ x, Decision (P x)} (l : list A) (x : A) :
  head (filter P l) = Some x ↔
  ∃ i, l !! i = Some x ∧ P x ∧ ∀ j y, (j < i)%nat → l !! j = Some y → ¬ P y.
Proof.
  induction l as [|a l IH].
  - split; [done | by intros (i & ? & _)].
  - rewrite filter_cons. destruct (decide (P a)) as [Ha|Ha].
    + simpl. split.
      * intros [= ->]. exists 0%nat. split_and!; [done | done | intros; lia].
      * intros ([|i] & Hi & Hx & Hlt); [by injection Hi as -> |].
        destruct (Hlt 0%nat a); [lia | done | done].
    + rewrite IH. split.
      * intros (i & Hi & Hx & Hlt). exists (S i). split_and!; [done | done |].
        intros [|j] y Hj Hy; [by injection Hy as <- |].
        apply (Hlt j); [lia | done].
      * intros ([|i] & Hi & Hx & Hlt); [by injection Hi as -> |].
        exists i. split_and!; [done | done |].
        intros j y Hj Hy. apply (Hlt (S j)); [lia | done].
Qed.

Lemma head_filter_None {A} (P : A → Prop) `{!∀ x, Decision (P x)} (l : list A) :
  head (filter P l) = None ↔ ∀ y, y ∈ l → ¬ P y.
Proof.
  induction l as [|a l IH].
  - split; [by intros _ y ?%elem_of_nil | done].
  - rewrite filter_cons. destruct (decide (P a)) as [Ha|Ha].
    + split; [done | intros Hall; destruct (Hall a); [left | done]].
    + rewrite IH. split.
      * intros Hall y [->|Hy]%elem_of_cons; [done | by apply Hall].
      * intros Hall y Hy. apply Hall. by right.
Qed.

Lemma get_insert (r : row) (col : string) (v : cell) : get (<[col := v]> r) col = v.
Proof. unfold get. by rewrite lookup_insert_eq. Qed.

Lemma get_insert_ne (r : row) (col col' : string) (v : cell) :
  col ≠ col' → get (<[col := v]> r) col' = get r col'.
Proof. intros H. unfold get. by rewrite lookup_insert_ne. Qed.

Lemma rows_assign_lookup (col : string) (f : row → cell) (d : frame) (i : nat) :
  rows (assign col f d) !! i = (λ r, <[col := f r]> r) <$> rows d !! i.
Proof. apply list_lookup_fmap. Qed.

(** ** Eligibility filter *)

Section Eligibility.

Context (str_upper : string → string) (parse_number : string → option Qc).

Lemma keyword_test (u : string) :
  negb (str_in "MUSIC" u || str_in "PHYS ED" u
        || str_in "ART" u || str_in "CREATIVE" u) = false
  ↔ has_keyword u.
Proof.
  unfold has_keyword. rewrite <- !str_in_occurs.
  destruct (str_in "MUSIC" u), (str_in "PHYS ED" u),
    (str_in "ART" u), (str_in "CREATIVE" u); simpl;
    intuition congruence.
Qed.

(** On a title that [upper] puts in upper case, the test of line 55 asks
    whether the title names a kind of course, letter case aside. *)
Lemma has_keyword_upper (t : string) : has_keyword (upper t) ↔ keyword t.
Proof.
  unfold has_keyword, keyword. by rewrite !occurs_upper_mentions.
Qed.

Lemma gt_zero_to_numeric (c : cell) :
  default false (gt_zero (to_numeric parse_number c)) = true
  ↔ ∃ x, to_numeric parse_number c = Num x ∧ (0 < x)%Qc.
Proof.
  destruct (to_numeric parse_number c) as [s|x|b|] eqn:E; simpl.
  - split; [done | by intros (x & ? & _)].
  - rewrite bool_decide_eq_true. split; [by exists x | by intros (y & [= ->] & ?)].
  - destruct c as [s| | |]; simpl in E; [by destruct (parse_number s) | done..].
  - split; [done | by intros (x & ? & _)].
Qed.

(** The test of lines 50-62 on a text title. *)
Lemma is_relevant_course_text (df : frame) (t : string) :
  is_relevant_course str_upper parse_number df (Str t) = true ↔
  has_keyword (str_upper t) ∧
  ∃ i r x,
    rows df !! i = Some r ∧ get r "Course Title" = Str (str_upper t)
    ∧ (∀ j r', (j < i)%nat → rows df !! j = Some r' →
               get r' "Course Title" ≠ Str (str_upper t))
    ∧ to_numeric parse_number (get r "Total Students") = Num x ∧ (0 < x)%Qc.
Proof.
  unfold is_relevant_course. rewrite <- keyword_test.
  destruct (negb _); [split; [done | by intros [? _]] |].
  destruct (head _) as [r|] eqn:E.
  - apply head_filter_first in E as (i & Hi & Hr & Hlt).
    rewrite gt_zero_to_numeric. split.
    + intros (x & Hx & Hpos). split; [done |]. by exists i, r, x.
    + intros (_ & i' & r' & x & Hi' & Hr' & Hlt' & Hx & Hpos).
      destruct (lt_eq_lt_dec i i') as [[Hlt1 | ->] | Hlt1].
      * by destruct (Hlt' i r).
      * rewrite Hi in Hi'. injection Hi' as ->. by exists x.
      * by destruct (Hlt i' r').
  - split; [done |]. intros (_ & i & r & x & Hi & Hr & _).
    eapply head_filter_None in E; [by destruct E |].
    apply list_elem_of_lookup. by exists i.
Qed.

(** C10. A row is kept by the filter exactly when its title is a text
    that, as [str.upper] gives it, contains a keyword, and the first row
    whose stored title equals that upper-cased title, character for
    character, has an enrollment that reads as a number above zero.  So a
    row whose title is not its own upper-case form is dropped unless some
    row carries the upper-case title.  Where [str.upper] is the ASCII one
    the keyword test reads on the title itself, letter case aside.  The
    only row of a roster, titled "Music 1" with 30 students, is dropped;
    of the rows "Art 1" with 30 students and "ART 1" with none, both are
    dropped; of the rows "Art 1" with no student and "ART 1" with 30, both
    are kept. *)
Theorem relevant_lookup_uses_uppercased_title (df : frame) (r : row) :
  (r ∈ rows (relevant str_upper parse_number df) ↔
     r ∈ rows df ∧
     ∃ t, get r "Course Title" = Str t ∧ has_keyword (str_upper t) ∧
     ∃ i r1 x,
       rows df !! i = Some r1 ∧ get r1 "Course Title" = Str (str_upper t)
       ∧ (∀ j r', (j < i)%nat → rows df !! j = Some r' →
                  get r' "Course Title" ≠ Str (str_upper t))
       ∧ to_numeric parse_number (get r1 "Total Students") = Num x ∧ (0 < x)%Qc)
  ∧ (∀ t, get r "Course Title" = Str t → str_upper t ≠ t →
       (∀ r', r' ∈ rows df → get r' "Course Title" ≠ Str (str_upper t)) →
       r ∉ rows (relevant str_upper parse_number df))
  ∧ (∀ t, str_upper t = upper t → has_keyword (str_upper t) ↔ keyword t)
  ∧ upper "Music 1" = "MUSIC 1"
  ∧ keyword "Music 1"
  ∧ rows (relevant upper parse_decimal (cleaned parse_decimal roster_lower)) = []
  ∧ keyword "Art 1"
  ∧ rows (relevant upper parse_decimal (cleaned parse_decimal roster_twins)) = []
  ∧ column "Course Title"
      (rows (relevant upper parse_decimal (cleaned parse_decimal roster_twins_swapped)))
    = [Str "Art 1"; Str "ART 1"].
Proof.
  assert (Hiff : r ∈ rows (relevant str_upper parse_number df) ↔
     r ∈ rows df
     ∧ is_relevant_course str_upper parse_number df (get r "Course Title") = true).
  { unfold relevant, select. simpl. rewrite list_elem_of_filter.
    rewrite Is_true_true. tauto. }
  split_and!.
  - rewrite Hiff. split.
    + intros [Hin Hrel]. split; [done |].
      destruct (get r "Course Title") as [t| | |] eqn:E; try done.
      exists t. split; [done |]. by apply is_relevant_course_text.
    + intros (Hin & t & Ht & Hrest). split; [done |].
      rewrite Ht. by apply is_relevant_course_text.
  - intros t Ht Hne Hnone. rewrite Hiff, Ht. intros [_ Hrel].
    apply is_relevant_course_text in Hrel
      as (_ & i & r1 & x & Hi & Hr1 & _).
    destruct (Hnone r1); [| done]. apply list_elem_of_lookup. by exists i.
  - intros t ->. apply has_keyword_upper.
  - reflexivity.
  - apply has_keyword_upper. left. exists "", " 1". reflexivity.
  - vm_compute. reflexivity.
  - apply has_keyword_upper. right. right. left. exists "", " 1". reflexivity.
  - vm_compute. reflexivity.
  - vm_compute. reflexivity.
Qed.

End Eligibility.

(** ** Numbers *)


Lemma this_mult (a b : Qc) : (this (a * b)%Qc == this a * this b)%Q.
Proof. apply Qred_correct. Qed.



Lemma this_Q2Qc (q : Q) : (this (Q2Qc q) == q)%Q.
Proof. apply Qred_correct. Qed.



(** *** Rounding to float64 *)

Lemma rint_comp (x y : Q) : x == y -> rint x = rint y.
Proof.
  intros H. unfold rint. rewrite (Qfloor_comp _ _ H).
  assert (Hc : (x - inject_Z (Qfloor y) ?= 1 # 2)%Q = (y - inject_Z (Qfloor y) ?= 1 # 2)%Q).
  { apply Qcompare_comp; [rewrite H; reflexivity | reflexivity]. }
  rewrite Hc. reflexivity.
Qed.

Lemma rint_Z (z : Z) : rint (inject_Z z) = z.
Proof.
  unfold rint. rewrite Qfloor_Z.
  assert (H : (inject_Z z - inject_Z z ?= 1 # 2)%Q = Lt).
  { rewrite <- Qlt_alt. generalize (inject_Z z). intros q. lra. }
  rewrite H. reflexivity.
Qed.

Lemma two_pos (e : Z) : (0 < 2 ^ e)%Q.
Proof. apply Qpower_0_lt. reflexivity. Qed.

Lemma two_plus (a b : Z) : (2 ^ (a + b) == 2 ^ a * 2 ^ b)%Q.
Proof. apply Qpower_plus. discriminate. Qed.

Lemma two_succ (a : Z) : (2 ^ (a + 1) == 2 * 2 ^ a)%Q.
Proof. rewrite two_plus. change (2 ^ 1)%Q with 2%Q. ring. Qed.

Lemma two_Z (n : Z) : 0 <= n -> (inject_Z (2 ^ n) == 2 ^ n)%Q.
Proof. intros H. apply (Zpower_Qpower 2 n H). Qed.

Lemma log2_unique (a : Q) (e e' : Z) :
  (2 ^ e <= a)%Q -> (a < 2 ^ (e + 1))%Q ->
  (2 ^ e' <= a)%Q -> (a < 2 ^ (e' + 1))%Q -> e = e'.
Proof.
  intros H1 H2 H3 H4.
  destruct (Z.lt_trichotomy e e') as [Hlt | [Heq | Hgt]]; [| exact Heq |].
  - exfalso. assert (H : (2 ^ (e + 1) <= 2 ^ e')%Q).
    { apply Qpower_le_compat_l; [lia | discriminate]. }
    lra.
  - exfalso. assert (H : (2 ^ (e' + 1) <= 2 ^ e)%Q).
    { apply Qpower_le_compat_l; [lia | discriminate]. }
    lra.
Qed.

Lemma Z_log2_Q (n : Z) :
  0 < n -> (2 ^ Z.log2 n <= inject_Z n)%Q /\ (inject_Z n < 2 ^ (Z.log2 n + 1))%Q.
Proof.
  intros Hn. destruct (Z.log2_spec n Hn) as [H1 H2].
  pose proof (Z.log2_nonneg n) as Hl.
  split.
  - rewrite <- two_Z by lia. rewrite <- Zle_Qle. exact H1.
  - rewrite <- two_Z by lia. rewrite <- Zlt_Qlt. exact H2.
Qed.

Lemma floor_log2_spec (a : Q) :
  (0 < a)%Q -> (2 ^ floor_log2 a <= a)%Q /\ (a < 2 ^ (floor_log2 a + 1))%Q.
Proof.
  intros Ha. unfold floor_log2.
  destruct a as [n d]. cbn [Qnum Qden].
  assert (Hn : 0 < n). { unfold Qlt in Ha. simpl in Ha. lia. }
  destruct (Z_log2_Q n Hn) as [Hn1 Hn2].
  destruct (Z_log2_Q (Zpos d) eq_refl) as [Hd1 Hd2].
  set (ln := Z.log2 n) in *. set (ld := Z.log2 (Zpos d)) in *.
  assert (Hnd : (n # d) * inject_Z (Zpos d) == inject_Z n).
  { unfold Qeq, Qmult, inject_Z. simpl. lia. }
  assert (Hk : (2 ^ ln == 2 ^ (ln - ld) * 2 ^ ld)%Q).
  { rewrite <- two_plus. apply Qpower_comp; [reflexivity | lia]. }
  pose proof (two_pos ld) as Pld. pose proof (two_pos (ln - ld)) as Pk.
  pose proof (two_succ ln) as Sln. pose proof (two_succ ld) as Sld.
  pose proof (two_succ (ln - ld)) as Sk.
  assert (Hk1 : (2 ^ (ln - ld) == 2 * 2 ^ (ln - ld - 1))%Q).
  { rewrite <- two_succ. apply Qpower_comp; [reflexivity | lia]. }
  assert (Hdpos : (0 < inject_Z (Zpos d))%Q) by (unfold Qlt; simpl; lia).
  set (A := (n # d)%Q) in *. set (D := inject_Z (Zpos d)) in *.
  set (N := inject_Z n) in *.
  set (P := (2 ^ ln)%Q) in *. set (R := (2 ^ ld)%Q) in *.
  set (K := (2 ^ (ln - ld))%Q) in *. set (K1 := (2 ^ (ln - ld - 1))%Q) in *.
  set (P1 := (2 ^ (ln + 1))%Q) in *. set (R1 := (2 ^ (ld + 1))%Q) in *.
  assert (Hhi : (A < 2 * K)%Q).
  { clearbody A D N P R K K1 P1 R1. apply Qnot_le_lt. intros Hc.
    assert (H1 : ((2 * K) * R <= A * D)%Q).
    { apply Qle_trans with (A * R)%Q.
      - apply Qmult_le_compat_r; [exact Hc | apply Qlt_le_weak, Pld].
      - rewrite (Qmult_comm A R), (Qmult_comm A D).
        apply Qmult_le_compat_r; [exact Hd1 | apply Qlt_le_weak, Ha]. }
    assert (H2 : ((2 * K) * R == 2 * P)%Q) by (rewrite Hk; ring).
    rewrite H2, Hnd in H1. clear - H1 Hn2 Sln. lra. }
  assert (Hlo : (K1 <= A)%Q).
  { clearbody A D N P R K K1 P1 R1. apply Qnot_lt_le. intros Hc.
    assert (H1 : (A * D < K1 * (2 * R))%Q).
    { apply Qlt_le_trans with (K1 * D)%Q.
      - apply Qmult_lt_compat_r; [exact Hdpos | exact Hc].
      - rewrite (Qmult_comm _ D), (Qmult_comm _ (2 * R)).
        apply Qmult_le_compat_r; [clear - Hd2 Sld; lra | clear - Pk Hk1; lra]. }
    assert (H2 : (K1 * (2 * R) == P)%Q) by (rewrite Hk, Hk1; ring).
    rewrite H2, Hnd in H1. clear - H1 Hn1. lra. }
  destruct (Qle_bool K A) eqn:E.
  - apply Qle_bool_iff in E. split; [exact E |]. rewrite Sk. exact Hhi.
  - assert (Hlt : (A < K)%Q).
    { apply Qnot_le_lt. intros Hc. apply Qle_bool_iff in Hc. congruence. }
    split; [exact Hlo |].
    assert (Heq : (2 ^ (ln - ld - 1 + 1) == K)%Q).
    { apply Qpower_comp; [reflexivity | lia]. }
    rewrite Heq. exact Hlt.
Qed.

Lemma rint_nonneg (x : Q) : (0 <= x)%Q -> 0 <= rint x.
Proof.
  intros Hx. unfold rint.
  assert (H : 0 <= Qfloor x).
  { change 0 with (Qfloor 0). apply Qfloor_resp_le. exact Hx. }
  destruct (_ ?= _)%Q; [destruct (Z.even _) | |]; lia.
Qed.

Lemma floor_log2_comp (a b : Q) : (0 < a)%Q -> a == b -> floor_log2 a = floor_log2 b.
Proof.
  intros Ha Hab.
  assert (Hb : (0 < b)%Q) by (rewrite <- Hab; exact Ha).
  destruct (floor_log2_spec a Ha) as [A1 A2].
  destruct (floor_log2_spec b Hb) as [B1 B2].
  assert (B1' : (2 ^ floor_log2 b <= a)%Q) by (rewrite Hab; exact B1).
  assert (B2' : (a < 2 ^ (floor_log2 b + 1))%Q) by (rewrite Hab; exact B2).
  exact (log2_unique a _ _ A1 A2 B1' B2').
Qed.

Lemma Qle_bool_comp (a b c d : Q) : a == b -> c == d -> Qle_bool a c = Qle_bool b d.
Proof.
  intros H1 H2. destruct (Qle_bool a c) eqn:E1, (Qle_bool b d) eqn:E2; try reflexivity.
  - apply Qle_bool_iff in E1. rewrite H1, H2 in E1. apply Qle_bool_iff in E1. congruence.
  - apply Qle_bool_iff in E2. rewrite <- H1, <- H2 in E2. apply Qle_bool_iff in E2. congruence.
Qed.

Lemma Qeq_bool_comp (a b : Q) : a == b -> Qeq_bool a 0 = Qeq_bool b 0.
Proof.
  intros H. destruct (Qeq_bool a 0) eqn:E1, (Qeq_bool b 0) eqn:E2; try reflexivity.
  - apply Qeq_bool_iff in E1. rewrite H in E1. apply Qeq_bool_iff in E1. congruence.
  - apply Qeq_bool_iff in E2. rewrite <- H in E2. apply Qeq_bool_iff in E2. congruence.
Qed.

Lemma round64_comp (x y : Q) : x == y -> round64 x == round64 y.
Proof.
  intros H. unfold round64. rewrite (Qeq_bool_comp x y H).
  destruct (Qeq_bool y 0) eqn:E; [reflexivity |].
  assert (Hx : (0 < Qabs x)%Q).
  { destruct (Qle_lt_or_eq 0 (Qabs x) (Qabs_nonneg x)) as [Hlt | Heq]; [exact Hlt |].
    exfalso. assert (Hx0 : x == 0).
    { revert Heq. apply Qabs_case; intros; lra. }
    rewrite H in Hx0. apply Qeq_bool_iff in Hx0. congruence. }
  assert (Ha : Qabs x == Qabs y) by (rewrite H; reflexivity).
  cbv zeta. rewrite (floor_log2_comp _ _ Hx Ha).
  rewrite (Qle_bool_comp 0 0 x y (Qeq_refl 0) H).
  set (ex := Z.max (floor_log2 (Qabs y) - 52) (-1074)).
  assert (Hr : rint (Qabs x / 2 ^ ex) = rint (Qabs y / 2 ^ ex)).
  { apply rint_comp. rewrite Ha. reflexivity. }
  rewrite Hr. reflexivity.
Qed.

Lemma round64_exact (M E : Z) :
  Z.abs M < 2 ^ 53 -> -1074 <= E ->
  round64 (inject_Z M * 2 ^ E) == inject_Z M * 2 ^ E.
Proof.
  intros HM HE. pose proof (two_pos E) as PE.
  destruct (Z.eq_dec M 0) as [-> | HM0].
  { unfold round64.
    assert (H : Qeq_bool (inject_Z 0 * 2 ^ E) 0 = true).
    { apply Qeq_bool_iff. ring. }
    rewrite H. ring. }
  unfold round64.
  set (q := (inject_Z M * 2 ^ E)%Q).
  assert (Hq0 : Qeq_bool q 0 = false).
  { destruct (Qeq_bool q 0) eqn:E0; [| reflexivity]. exfalso.
    apply Qeq_bool_iff in E0. unfold q in E0.
    apply Qmult_integral in E0 as [E0 | E0].
    - apply HM0. unfold Qeq in E0. simpl in E0. lia.
    - rewrite E0 in PE. lra. }
  rewrite Hq0. cbv zeta.
  assert (Ha : Qabs q == inject_Z (Z.abs M) * 2 ^ E).
  { unfold q. rewrite Qabs_Qmult. rewrite (Qabs_pos (2 ^ E)) by lra.
    apply Qmult_comp; [| reflexivity].
    unfold Qabs, inject_Z. simpl. reflexivity. }
  assert (Habs : 0 < Z.abs M) by lia.
  destruct (Z_log2_Q _ Habs) as [L1 L2].
  set (L := Z.log2 (Z.abs M)) in *.
  assert (HL : L <= 52).
  { pose proof (proj1 (Z.log2_lt_pow2 (Z.abs M) 53 Habs) HM). lia. }
  assert (Hapos : (0 < Qabs q)%Q).
  { rewrite Ha. apply Qmult_lt_0_compat; [| exact PE].
    unfold Qlt. simpl. lia. }
  assert (Hfl : floor_log2 (Qabs q) = L + E).
  { destruct (floor_log2_spec _ Hapos) as [F1 F2].
    apply (log2_unique (Qabs q)); [exact F1 | exact F2 | |].
    - rewrite Ha, two_plus. apply Qmult_le_compat_r; [exact L1 | lra].
    - rewrite Ha. replace (L + E + 1) with ((L + 1) + E) by lia.
      rewrite two_plus. apply Qmult_lt_compat_r; [exact PE | exact L2]. }
  rewrite Hfl.
  set (ex := Z.max (L + E - 52) (-1074)).
  assert (Hex : ex <= E) by lia.
  assert (Hdiv : Qabs q / 2 ^ ex == inject_Z (Z.abs M * 2 ^ (E - ex))).
  { rewrite Ha, inject_Z_mult, two_Z by lia.
    rewrite (Qpower_minus 2 E ex) by discriminate. unfold Qdiv. ring. }
  rewrite (rint_comp _ _ Hdiv), rint_Z.
  assert (Hpow : (2 ^ E == inject_Z (2 ^ (E - ex)) * 2 ^ ex)%Q).
  { rewrite two_Z by lia. rewrite <- two_plus.
    apply Qpower_comp; [reflexivity | lia]. }
  destruct (Qle_bool 0 q) eqn:Hs.
  - apply Qle_bool_iff in Hs.
    assert (HMp : 0 < M).
    { destruct (Z.lt_trichotomy M 0) as [Hn | [Hz | Hp]]; [| lia | exact Hp].
      exfalso. unfold q in Hs.
      assert (inject_Z M * 2 ^ E < 0)%Q.
      { rewrite <- (Qmult_0_l (2 ^ E)). apply Qmult_lt_compat_r; [exact PE |].
        unfold Qlt. simpl. lia. }
      lra. }
    rewrite Z.abs_eq by lia. unfold q. rewrite inject_Z_mult, Hpow. ring.
  - assert (HMn : M < 0).
    { destruct (Z.lt_trichotomy M 0) as [Hn | [Hz | Hp]]; [exact Hn | lia |].
      exfalso. assert (Hq : (0 <= q)%Q).
      { unfold q. apply Qmult_le_0_compat; [| lra]. unfold Qle. simpl. lia. }
      apply Qle_bool_iff in Hq. congruence. }
    rewrite Z.abs_neq by lia. unfold q.
    rewrite <- Z.mul_opp_l, Z.opp_involutive, inject_Z_mult, Hpow. ring.
Qed.

Lemma round64_nonneg (q : Q) : (0 <= q)%Q -> (0 <= round64 q)%Q.
Proof.
  intros Hq. unfold round64. destruct (Qeq_bool q 0); [lra |]. cbv zeta.
  apply Qle_bool_iff in Hq as Hb. rewrite Hb.
  set (ex := Z.max _ _). pose proof (two_pos ex) as P.
  apply Qmult_le_0_compat; [| lra].
  change 0%Q with (inject_Z 0). rewrite <- Zle_Qle. apply rint_nonneg.
  apply Qle_shift_div_l; [exact P |]. rewrite Qmult_0_l. apply Qabs_nonneg.
Qed.



(** *** float64 and int64 on cells *)

Lemma this_f64 (q : Q) : (this (f64 q) == round64 q)%Q.
Proof. apply Qred_correct. Qed.

(** A float64 number is its own rounding. *)
Lemma f64_exact (x : Qc) : is_f64 x → f64 x = x.
Proof.
  intros (m & e & Hm & He & Hx). apply Qc_is_canon. rewrite this_f64.
  transitivity (round64 (inject_Z m * 2 ^ e)); [by apply round64_comp |].
  transitivity (inject_Z m * 2 ^ e)%Q; [| by symmetry].
  apply round64_exact; lia.
Qed.

(** A whole number below 2^53 is a float64 number. *)
Lemma is_f64_Z (z : Z) : Z.abs z < 2 ^ 53 → is_f64 (Qc_of_Z z).
Proof.
  intros Hz. exists z, 0. split_and!; [done | lia | lia |].
  cbn [this Qc_of_Z]. change (2 ^ 0)%Q with 1%Q. ring.
Qed.

Lemma f64_Z (z : Z) : Z.abs z < 2 ^ 53 → f64 (inject_Z z) = Qc_of_Z z.
Proof. intros Hz. apply (f64_exact (Qc_of_Z z)). by apply is_f64_Z. Qed.








(** ** Overload calculator *)

Section Calculator.

Context (str_upper : string → string) (parse_number : string → option Qc).
Context (pay_rate : Qc) (number_of_weeks : Z).

Lemma coerced_filled_numeric (c : cell) :
  ∃ x, fillna (Num 0%Qc) (to_numeric parse_number c) = Num x
       ∧ (∀ y, c = Num y → x = y).
Proof.
  destruct c as [s|y|[]|]; simpl.
  - destruct (parse_number s); eexists; split; [done | done | done | done].
  - exists y. split; [done | by intros ? [= ->]].
  - by eexists.
  - by eexists.
  - by eexists.
Qed.




End Calculator.

(** ** Aggregator *)

(** *** Sorting keeps the rows, and the order of rows with equal keys *)






(** *** Rows of the totals and of the report *)


Lemma staff_total_row_name (g : cell * list row) :
  get (staff_total_row g) "Staff Name" = g.1.
Proof. apply get_insert. Qed.



Lemma of_kind_app (k : row_kind) (xs ys : list (row_kind * row)) :
  of_kind k (xs ++ ys) = of_kind k xs ++ of_kind k ys.
Proof. unfold of_kind. by rewrite filter_app, fmap_app. Qed.

Lemma of_kind_tagged (k k' : row_kind) (g : list row) :
  of_kind k ((λ r, (k', r)) <$> g) = if decide (k' = k) then g else [].
Proof.
  unfold of_kind. induction g as [|r g IH].
  - by destruct (decide (k' = k)).
  - rewrite fmap_cons, filter_cons. cbn [fst].
    destruct (decide (k' = k)) as [Heq|Hne].
    + rewrite fmap_cons, IH. done.
    + exact IH.
Qed.

(** The loop of lines 114-136 finds a summary for every group, and the
    detail rows it emits are the groups laid end to end. *)
Lemma report_rows_detail (st : frame) (cols : list string) (groups : list (cell * list row)) :
  (∀ g, g ∈ groups → ∃ s, s ∈ rows st ∧ get s "Staff Name" = g.1) →
  ∃ final_data,
    report_rows st cols groups = inr final_data
    ∧ of_kind Detail final_data = concat (snd <$> groups).
Proof.
  induction groups as [|[k g] groups IH]; intros Hsum; simpl.
  - by exists [].
  - destruct IH as (rest & -> & Hrest).
    { intros g' Hg'. apply Hsum. by right. }
    destruct (Hsum (k, g)) as (s & Hs & Hk); [left |].
    destruct (head _) as [summary|] eqn:E.
    + eexists. split; [reflexivity |].
      rewrite of_kind_app, of_kind_tagged, decide_True by done.
      f_equal. unfold of_kind in *. by rewrite !filter_cons.
    + eapply head_filter_None in E; [by destruct E | done].
Qed.

Lemma groupby_summaries (df : frame) (g : cell * list row) :
  g ∈ groupby "Staff Name" df →
  ∃ s, s ∈ rows (agg_sum df) ∧ get s "Staff Name" = g.1.
Proof.
  intros Hg. exists (staff_total_row g). split; [| apply staff_total_row_name].
  unfold agg_sum. simpl. apply list_elem_of_fmap. by exists g.
Qed.

(** *** The groups partition the rows that have a key *)





(** *** Sums of int64 wrap around, and still add up *)







Section StaffTotals.

Context (str_upper : string → string) (parse_number : string → option Qc).
Context (pay_rate : Qc) (number_of_weeks : Z).




End StaffTotals.

(** ** Steps on the store *)

Lemma bind_normal {A B} (m : M A) (k : A → M B) (s s' : store) (a : A) :
  m s = (Normal a, s') → (m ≫= k) s = k a s'.
Proof. intros H. unfold mbind, M_bind. by rewrite H. Qed.

Lemma bind_return {A B} (m : M A) (k : A → M B) (s s' : store) (r : report) :
  m s = (Return r, s') → (m ≫= k) s = (Return r, s').
Proof. intros H. unfold mbind, M_bind. by rewrite H. Qed.

Lemma bind_raise {A B} (m : M A) (k : A → M B) (s s' : store) (e : exn) :
  m s = (Raise e, s') → (m ≫= k) s = (Raise e, s').
Proof. intros H. unfold mbind, M_bind. by rewrite H. Qed.

Lemma load_ok (s : store) (r : nat) (d : frame) :
  s !! r = Some d → load r s = (Normal d, s).
Proof. intros H. unfold load. by rewrite H. Qed.

Lemma modify_ok (s : store) (r : nat) (d : frame) (f : frame → frame) :
  s !! r = Some d → modify r f s = (Normal tt, <[r := f d]> s).
Proof. intros H. unfold modify. by rewrite H. Qed.

Lemma lookup_updated (s : store) (r : nat) (d d' : frame) :
  s !! r = Some d → <[r := d']> s !! r = Some d'.
Proof. intros H%lookup_lt_Some. by apply list_lookup_insert_eq. Qed.

Lemma when_modify_ok (s : store) (r : nat) (d : frame) (b : bool) (f : frame → frame) :
  s !! r = Some d →
  when b (modify r f) s = (Normal tt, <[r := if b then f d else d]> s).
Proof.
  intros H. destruct b.
  - by apply modify_ok.
  - unfold when, mret, M_ret. by rewrite list_insert_id.
Qed.

Lemma lookup_new (s : store) (d : frame) : (s ++ [d]) !! length s = Some d.
Proof. by rewrite list_lookup_middle. Qed.

(** ** Schema validator *)

Section Run.

Context (str_upper : string → string) (parse_number : string → option Qc).
Context (pay_rate : Qc) (number_of_weeks : Z).

Lemma validate_columns (s : store) (df : nat) (d : frame) :
  s !! df = Some d →
  validate df s =
  if has_column "Course Title" d then
    if has_column "Staff Name" d then
      if has_column "Total Students" d then (Normal tt, s)
      else (Return (MissingColumn "Total Students"), s)
    else (Return (MissingColumn "Staff Name"), s)
  else (Return (MissingColumn "Course Title"), s).
Proof.
  intros H.
  unfold validate, required_columns, for_each, mbind, M_bind, load, return_,
    mret, M_ret.
  rewrite H.
  destruct (has_column "Course Title" d); [rewrite H | done].
  destruct (has_column "Staff Name" d); [rewrite H | done].
  by destruct (has_column "Total Students" d).
Qed.

(** C7. When a required column is missing, the run reports the first one
    missing in the order Course Title, Staff Name, Total Students, gives no
    results and leaves the store as it was; when all three are present the
    validator lets the run continue and leaves the table as it was. *)
Theorem validate_reports_first_missing (s : store) (df : nat) (d : frame) :
  s !! df = Some d →
  ((∃ col, col ∈ required_columns ∧ col ∉ columns d) →
   ∃ missing before after,
     required_columns = before ++ missing :: after
     ∧ (∀ col, col ∈ before → col ∈ columns d)
     ∧ (missing ∉ columns d)
     ∧ run str_upper parse_number pay_rate number_of_weeks df s = (MissingColumn missing, s))
  ∧ ((∀ col, col ∈ required_columns → col ∈ columns d) →
     validate df s = (Normal tt, s) ∧ s !! df = Some d).
Proof.
  intros H. pose proof (validate_columns s df d H) as Hv.
  unfold has_column in Hv. split.
  - intros (col & Hreq & Hcol).
    assert (Hrun : ∀ missing, validate df s = (Return (MissingColumn missing), s) →
              run str_upper parse_number pay_rate number_of_weeks df s = (MissingColumn missing, s)).
    { intros missing Hm. unfold run, try_except, process_data.
      by rewrite (bind_return _ _ _ _ _ Hm). }
    destruct (decide ("Course Title" ∈ columns d)) as [H1|H1].
    + rewrite (bool_decide_eq_true_2 _ H1) in Hv.
      destruct (decide ("Staff Name" ∈ columns d)) as [H2|H2].
      * rewrite (bool_decide_eq_true_2 _ H2) in Hv.
        destruct (decide ("Total Students" ∈ columns d)) as [H3|H3].
        -- exfalso. unfold required_columns in Hreq.
           rewrite !elem_of_cons, elem_of_nil in Hreq.
           destruct Hreq as [->| [->| [->| []]]]; done.
        -- rewrite (bool_decide_eq_false_2 _ H3) in Hv.
           exists "Total Students", ["Course Title"; "Staff Name"], [].
           split_and!; [done | | done | by apply Hrun].
           intros c. rewrite !elem_of_cons, elem_of_nil.
           by intros [->| [->| []]].
      * rewrite (bool_decide_eq_false_2 _ H2) in Hv.
        exists "Staff Name", ["Course Title"], ["Total Students"].
        split_and!; [done | | done | by apply Hrun].
        intros c. rewrite !elem_of_cons, elem_of_nil. by intros [->| []].
    + rewrite (bool_decide_eq_false_2 _ H1) in Hv.
      exists "Course Title", [], ["Staff Name"; "Total Students"].
      split_and!; [done | | done | by apply Hrun].
      by intros c ?%elem_of_nil.
  - intros Hall. split; [| done].
    rewrite !bool_decide_eq_true_2 in Hv; [done | apply Hall..];
      unfold required_columns; rewrite !elem_of_cons; auto.
Qed.

End Run.

(** ** Type normalizer *)

Lemma bind_assoc {A B C} (m : M A) (k : A → M B) (h : B → M C) (s : store) :
  ((m ≫= k) ≫= h) s = (m ≫= (λ a, k a ≫= h)) s.
Proof. unfold mbind, M_bind. by destruct (m s) as [[]]. Qed.

Lemma bind_ret {A B} (a : A) (k : A → M B) (s : store) : (mret a ≫= k) s = k a s.
Proof. reflexivity. Qed.

Ltac run_load H :=
  rewrite ?bind_assoc; rewrite (bind_normal _ _ _ _ _ (load_ok _ _ _ H)).
Ltac run_when H :=
  rewrite ?bind_assoc; rewrite (bind_normal _ _ _ _ _ (when_modify_ok _ _ _ _ _ H)).
Ltac run_modify H :=
  rewrite ?bind_assoc; rewrite (bind_normal _ _ _ _ _ (modify_ok _ _ _ _ H)).

Section Normalizer.

Context (parse_number : string → option Qc).

(** What lines 38-47 do to the store: the table passed in is overwritten
    with its normalized form, and one new table is made. *)
Lemma normalize_run (s : store) (df : nat) (d : frame) :
  s !! df = Some d →
  normalize parse_number df s
  = (Normal (length s),
     <[df := normalized parse_number d]> s ++ [cleaned parse_number d]).
Proof.
  intros H. unfold normalize. cbn [for_each].
  run_load H. run_when H.
  pose proof (lookup_updated s df d
    (if has_column "Total Students" d
     then assign "Total Students" (coerced parse_number "Total Students") d
     else d) H) as H1.
  run_load H1. run_when H1. rewrite list_insert_insert_eq.
  match goal with
  | |- context [<[df := ?d2]> s] => pose proof (lookup_updated s df d d2 H) as H2
  end.
  rewrite ?bind_assoc, bind_ret.
  run_load H2. run_when H2. rewrite list_insert_insert_eq.
  match goal with
  | |- context [<[df := ?d3]> s] => pose proof (lookup_updated s df d d3 H) as H3
  end.
  run_load H3. unfold alloc. by rewrite length_insert.
Qed.

End Normalizer.

Section NormalizedCells.

Context (parse_number : string → option Qc).

Lemma has_column_assign_present (col col' : string) (f : row → cell) (d : frame) :
  has_column col d = true → has_column col' (assign col f d) = has_column col' d.
Proof. intros H. unfold has_column at 1, assign. simpl. by rewrite H. Qed.

(** The row that lines 38-44 leave in place of [r]. *)
Lemma normalized_rows (d : frame) :
  has_column "Total Students" d = true →
  rows (normalized parse_number d) =
  (λ r,
     let r1 := <["Total Students" := coerced parse_number "Total Students" r]> r in
     let r2 := if has_column "Max Students" d
               then <["Max Students" := coerced parse_number "Max Students" r1]> r1
               else r1 in
     <["Total Students" := filled "Total Students" r2]> r2) <$> rows d.
Proof.
  intros Hts. unfold normalized. cbn [foldl]. unfold coerce_column.
  rewrite Hts, has_column_assign_present by done.
  destruct (has_column "Max Students" d) eqn:Hms.
  - rewrite !has_column_assign_present, Hts by
      (by rewrite ?has_column_assign_present).
    unfold assign. cbn [rows]. by rewrite <- !list_fmap_compose.
  - rewrite has_column_assign_present, Hts by done.
    unfold assign. cbn [rows]. by rewrite <- !list_fmap_compose.
Qed.

Lemma normalized_columns (d : frame) :
  columns (normalized parse_number d) = columns d.
Proof.
  assert (Hc : ∀ d col, columns (coerce_column parse_number d col) = columns d).
  { intros d' col. unfold coerce_column.
    destruct (has_column col d') eqn:E; [| done]. unfold assign. simpl. by rewrite E. }
  unfold normalized. cbn [foldl].
  destruct (has_column "Total Students" _) eqn:E.
  - unfold assign. cbn [columns]. by rewrite E, !Hc.
  - by rewrite !Hc.
Qed.

(** C6, as the code has it. Normalization never fails.  Each Total Students
    cell becomes a number: the one it reads as, or zero when it does not
    read as a number.  A Max Students cell, when the column is present, is
    only coerced: when it does not read as a number it is left missing
    (NaN), not zero. *)
Theorem normalizer_zero_fills_total_students_only
    (s : store) (df : nat) (d : frame) (i : nat) (r : row) :
  s !! df = Some d →
  has_column "Total Students" d = true →
  rows d !! i = Some r →
  (∃ out s', normalize parse_number df s = (Normal out, s')
             ∧ s' !! df = Some (normalized parse_number d)
             ∧ s' !! out = Some (cleaned parse_number d))
  ∧ ∃ r' x,
      rows (normalized parse_number d) !! i = Some r'
      ∧ get r' "Total Students" = Num x
      ∧ (to_numeric parse_number (get r "Total Students") = NaN → x = 0%Qc)
      ∧ (∀ y, to_numeric parse_number (get r "Total Students") = Num y → x = y)
      ∧ (has_column "Max Students" d = true →
         get r' "Max Students" = to_numeric parse_number (get r "Max Students")
         ∧ (to_numeric parse_number (get r "Max Students") = NaN →
            get r' "Max Students" = NaN)).
Proof.
  intros Hs Hts Hr. split.
  - eexists _, _. split; [by apply normalize_run |]. split.
    + rewrite lookup_app_l by (rewrite length_insert; by eapply lookup_lt_Some).
      by eapply lookup_updated.
    + rewrite <- (length_insert s df (normalized parse_number d)).
      apply lookup_new.
  - rewrite normalized_rows, list_lookup_fmap, Hr by done.
    cbn [fmap option_fmap option_map]. cbv zeta. unfold filled, coerced.
    destruct (coerced_filled_numeric parse_number (get r "Total Students"))
      as (x & Hx & _).
    assert (Hnan : to_numeric parse_number (get r "Total Students") = NaN → x = 0%Qc).
    { intros E. rewrite E in Hx. by injection Hx. }
    assert (Hnum : ∀ y, to_numeric parse_number (get r "Total Students") = Num y →
                        x = y).
    { intros y E. rewrite E in Hx. by injection Hx. }
    destruct (has_column "Max Students" d);
      (eexists _, x; split; [reflexivity |]);
      repeat first [rewrite get_insert | rewrite get_insert_ne by done];
      rewrite Hx; split_and!; done.
Qed.

End NormalizedCells.

(** ** The stages on the store *)

Lemma insert_new (s : store) (d d' : frame) :
  <[length s := d']> (s ++ [d]) = s ++ [d'].
Proof.
  rewrite insert_app_r_alt by lia. by rewrite Nat.sub_diag.
Qed.

Section Stages.

Context (str_upper : string → string) (parse_number : string → option Qc).
Context (pay_rate : Qc) (number_of_weeks : Z).

(** Lines 50-68 make one new table and change nothing else. *)
Lemma filter_relevant_run (s : store) (df : nat) (d : frame) :
  s !! df = Some d →
  filter_relevant str_upper parse_number df s
  = (if bool_decide (rows (relevant str_upper parse_number d) = [])
     then Return NoRelevantCourses else Normal (length s),
     s ++ [relevant str_upper parse_number d]).
Proof.
  intros H. unfold filter_relevant. run_load H.
  rewrite (bind_normal _ _ _ _ _ (eq_refl : alloc _ s = _)).
  run_load (lookup_new s (relevant str_upper parse_number d)).
  fold (relevant str_upper parse_number d).
  by destruct (bool_decide (rows (relevant str_upper parse_number d) = [])).
Qed.

(** Line 84 writes the thresholds into the table of the filter. *)
Lemma resolve_thresholds_run (s : store) (rc : nat) (d : frame) :
  s !! rc = Some d →
  resolve_thresholds str_upper rc s = (Normal tt, <[rc := with_thresholds str_upper d]> s).
Proof. intros H. by apply modify_ok. Qed.

(** Lines 87-94 write into the same table. *)
Lemma calculate_overload_run (s : store) (rc : nat) (d : frame) :
  s !! rc = Some d →
  calculate_overload parse_number pay_rate number_of_weeks rc s
  = (Normal tt, <[rc := with_overload parse_number pay_rate number_of_weeks d]> s).
Proof.
  intros H. unfold calculate_overload.
  run_modify H.
  match goal with
  | |- context [<[rc := ?d1]> s] => pose proof (lookup_updated s rc d d1 H) as H1
  end.
  run_modify H1. rewrite list_insert_insert_eq.
  match goal with
  | |- context [<[rc := ?d2]> s] => pose proof (lookup_updated s rc d d2 H) as H2
  end.
  run_modify H2. rewrite list_insert_insert_eq.
  match goal with
  | |- context [<[rc := ?d3]> s] => pose proof (lookup_updated s rc d d3 H) as H3
  end.
  rewrite (modify_ok _ _ _ _ H3), list_insert_insert_eq. reflexivity.
Qed.

End Stages.

(** ** The report rows and the non-zero view *)

Lemma blank_row_cell (cols : list string) (col : string) :
  col ∈ cols → col ≠ "isBlank" → get (blank_row cols) col = Str "".
Proof.
  intros Hin Hne. unfold blank_row. rewrite get_insert_ne by done.
  unfold get. induction cols as [|c cols IH]; [by apply elem_of_nil in Hin |].
  rewrite fmap_cons. cbn [list_to_map foldr fst snd uncurry]. simpl.
  destruct (decide (c = col)) as [->|Hc].
  - by rewrite lookup_insert_eq.
  - rewrite lookup_insert_ne by done. apply IH.
    apply elem_of_cons in Hin as [->|]; done.
Qed.

(** As soon as there is a group, the loop of lines 114-136 emits a blank
    row. *)
Lemma report_rows_blank (st : frame) (cols : list string)
    (groups : list (cell * list row)) (final_data : list (row_kind * row)) :
  groups ≠ [] →
  report_rows st cols groups = inr final_data →
  (Blank, blank_row cols) ∈ final_data.
Proof.
  destruct groups as [|[k g] groups]; [done |]. intros _. simpl.
  destruct (head _); [| done]. destruct (report_rows st cols groups); [done |].
  intros [= <-]. rewrite elem_of_app. right. right. left.
Qed.

(** The comparison of line 150 raises as soon as the column holds a text. *)
Lemma non_zero_rows_text (fd : frame) (r : row) :
  r ∈ rows fd → gt_zero (get r "Total Overload") = None →
  ∃ e, non_zero_rows fd = inl e.
Proof.
  intros Hr Hgt. unfold non_zero_rows.
  destruct (negb (has_column "Total Overload" fd)); [by exists KeyError |].
  rewrite (mapM_None_2 (λ r, gt_zero (get r "Total Overload")) (rows fd)).
  - by exists TypeError.
  - apply Exists_exists. by exists r.
Qed.

Lemma has_column_assign (col : string) (f : row → cell) (d : frame) :
  has_column col (assign col f d) = true.
Proof.
  unfold assign, has_column. cbn [columns].
  destruct (bool_decide (col ∈ columns d)) eqn:E; apply bool_decide_eq_true.
  - apply bool_decide_eq_true in E. exact E.
  - apply elem_of_app. right. apply list_elem_of_here.
Qed.

Lemma has_column_assign_keeps (col col' : string) (f : row → cell) (d : frame) :
  has_column col' d = true → has_column col' (assign col f d) = true.
Proof.
  unfold assign, has_column. cbn [columns]. intros H%bool_decide_eq_true.
  apply bool_decide_eq_true. destruct (bool_decide (col ∈ columns d)); [done |].
  apply elem_of_app. by left.
Qed.

Section Aggregate.

Context (str_upper : string → string) (parse_number : string → option Qc).
Context (pay_rate : Qc) (number_of_weeks : Z).

Lemma flagged_overload_cell (fd : frame) (r : row) :
  r ∈ rows fd →
  ∃ r', r' ∈ rows (flagged fd) ∧ get r' "Total Overload" = get r "Total Overload".
Proof.
  intros Hr. unfold flagged.
  destruct (negb (has_column "isBlank" fd));
    [destruct (negb (has_column "isSummary" _)) | destruct (negb (has_column "isSummary" _))];
    unfold assign; cbn [rows].
  - eexists. split.
    + apply list_elem_of_fmap. eexists. split; [reflexivity |].
      apply list_elem_of_fmap. eexists. split; [reflexivity | exact Hr].
    + by rewrite !get_insert_ne.
  - eexists. split.
    + apply list_elem_of_fmap. eexists. split; [reflexivity | exact Hr].
    + by rewrite !get_insert_ne.
  - eexists. split.
    + apply list_elem_of_fmap. eexists. split; [reflexivity | exact Hr].
    + by rewrite !get_insert_ne.
  - by exists r.
Qed.

(** Lines 97-165 on the store: the aggregator makes new tables only.  On a
    table that has the Total Overload column it never reaches its
    [return]: sorting raises, or the comparison of line 150 does. *)
Lemma aggregate_store (s : store) (rc : nat) (d : frame) :
  s !! rc = Some d →
  ∃ o tail,
    aggregate rc s = (o, s ++ tail)
    ∧ (has_column "Total Overload" d = true → ∃ e, o = Raise e).
Proof.
  intros H. unfold aggregate. run_load H.
  destruct (sort_values "Staff Name" d) as [e|sorted] eqn:Hsort.
  { exists (Raise e), []. rewrite app_nil_r. split; [by apply bind_raise | by exists e]. }
  assert (sorted = sorted_by "Staff Name" d) as ->.
  { unfold sort_values in Hsort. destruct (_ && _); congruence. }
  set (sorted := sorted_by "Staff Name" d).
  rewrite ?bind_assoc. rewrite (bind_normal _ _ _ _ _ (eq_refl : lift (inr sorted) s = _)).
  rewrite (bind_normal _ _ _ _ _ (eq_refl : alloc _ s = _)).
  run_load (lookup_new s sorted).
  rewrite (bind_normal _ _ _ _ _ (eq_refl : alloc _ (s ++ [sorted]) = _)).
  run_load (lookup_new (s ++ [sorted]) (agg_sum sorted)).
  destruct (report_rows_detail (agg_sum sorted) (columns sorted)
              (groupby "Staff Name" sorted)) as (final_data & Hrows & _).
  { intros g. by apply groupby_summaries. }
  rewrite Hrows.
  set (s2 := (s ++ [sorted]) ++ [agg_sum sorted]).
  set (fd := DataFrame (columns sorted) final_data).
  rewrite ?bind_assoc. rewrite (bind_normal _ _ _ _ _ (eq_refl : lift (inr final_data) s2 = _)).
  rewrite (bind_normal _ _ _ _ _ (eq_refl : alloc _ s2 = _)).
  pose proof (lookup_new s2 fd) as Hfd.
  run_load Hfd. run_when Hfd.
  match goal with
  | |- context [<[length s2 := ?d1]> (s2 ++ [fd])] =>
      pose proof (lookup_updated _ _ _ d1 Hfd) as Hfd1
  end.
  run_load Hfd1. run_when Hfd1. rewrite list_insert_insert_eq.
  match goal with
  | |- context [<[length s2 := ?d2]> (s2 ++ [fd])] =>
      pose proof (lookup_updated _ _ _ d2 Hfd) as Hfd2
  end.
  run_load Hfd2. fold (flagged fd). rewrite insert_new.
  assert (Hfail : has_column "Total Overload" d = true →
                  ∃ e, non_zero_rows (flagged fd) = inl e).
  { intros Hcol. destruct (groupby "Staff Name" sorted) as [|g gs] eqn:Hg.
    - injection Hrows as <-. by exists KeyError.
    - pose proof (report_rows_blank _ _ _ _ (ltac:(done) : g :: gs ≠ []) Hrows) as Hb.
      destruct (flagged_overload_cell fd (blank_row (columns sorted)))
        as (r' & Hr' & Hcell).
      { unfold fd, DataFrame. cbn [rows]. apply list_elem_of_fmap.
        by exists (Blank, blank_row (columns sorted)). }
      apply (non_zero_rows_text _ r' Hr'). rewrite Hcell, blank_row_cell; [done | | done].
      by apply bool_decide_eq_true in Hcol. }
  destruct (non_zero_rows (flagged fd)) as [e|view] eqn:He.
  - exists (Raise e), [sorted; agg_sum sorted; flagged fd]. split; [| by exists e].
    unfold s2. rewrite <- !app_assoc. reflexivity.
  - eexists _, [sorted; agg_sum sorted; flagged fd; view]. split.
    + unfold s2. unfold mbind, M_bind, lift, alloc, mret, M_ret.
      rewrite <- !app_assoc. reflexivity.
    + intros Hcol. by destruct (Hfail Hcol).
Qed.

Lemma aggregate_raises (s : store) (rc : nat) (d : frame) :
  s !! rc = Some d →
  has_column "Total Overload" d = true →
  ∃ e tail, aggregate rc s = (Raise e, s ++ tail).
Proof.
  intros H Hcol. destruct (aggregate_store s rc d H) as (o & tail & Hrun & Hraise).
  destruct (Hraise Hcol) as [e ->]. by exists e, tail.
Qed.

End Aggregate.

(** ** The whole run *)

Section WholeRun.

Context (str_upper : string → string) (parse_number : string → option Qc).
Context (pay_rate : Qc) (number_of_weeks : Z).

Lemma calculated_has_overload (rc : frame) :
  has_column "Total Overload" (calculated str_upper parse_number pay_rate number_of_weeks rc)
  = true.
Proof.
  unfold calculated, with_overload.
  apply has_column_assign_keeps, has_column_assign.
Qed.

(** The run of [process_data] on a table that has the three required
    columns, up to the aggregator. *)
Lemma process_data_run (s : store) (df : nat) (d : frame) :
  s !! df = Some d →
  (∀ col, col ∈ required_columns → col ∈ columns d) →
  process_data str_upper parse_number pay_rate number_of_weeks df s =
  let s1 := <[df := normalized parse_number d]> s ++ [cleaned parse_number d] in
  let rc := relevant str_upper parse_number (cleaned parse_number d) in
  if bool_decide (rows rc = []) then (Return NoRelevantCourses, s1 ++ [rc])
  else aggregate (length s1)
         (s1 ++ [calculated str_upper parse_number pay_rate number_of_weeks rc]).
Proof.
  intros H Hall. cbv zeta. unfold process_data.
  assert (Hv : validate df s = (Normal tt, s)).
  { rewrite (validate_columns s df d H). unfold has_column.
    rewrite !bool_decide_eq_true_2; [done | apply Hall..];
      unfold required_columns; rewrite !elem_of_cons; auto. }
  rewrite (bind_normal _ _ _ _ _ Hv).
  rewrite (bind_normal _ _ _ _ _ (normalize_run parse_number s df d H)).
  set (s0 := <[df := normalized parse_number d]> s).
  assert (Hlen : length s = length s0) by (unfold s0; by rewrite length_insert).
  rewrite Hlen.
  rewrite (filter_relevant_run str_upper parse_number _ _ _ (lookup_new s0 (cleaned parse_number d)))
    || (unfold mbind at 1, M_bind at 1;
        rewrite (filter_relevant_run str_upper parse_number _ _ _
                   (lookup_new s0 (cleaned parse_number d)))).
  set (s1 := s0 ++ [cleaned parse_number d]).
  set (rc := relevant str_upper parse_number (cleaned parse_number d)).
  destruct (bool_decide (rows rc = [])); [done |].
  rewrite (bind_normal _ _ _ _ _
             (resolve_thresholds_run str_upper _ _ _ (lookup_new s1 rc))).
  rewrite insert_new.
  rewrite (bind_normal _ _ _ _ _
             (calculate_overload_run parse_number pay_rate number_of_weeks _ _ _
                (lookup_new s1 (with_thresholds str_upper rc)))).
  by rewrite insert_new.
Qed.

(** Every run ends in [return None]: a missing column, no relevant course,
    or an exception. *)
Lemma run_gives_no_results (s : store) (df : nat) :
  ∀ data totals grand view,
    (run str_upper parse_number pay_rate number_of_weeks df s).1
    ≠ Results data totals grand view.
Proof.
  intros data totals grand view. unfold run, try_except.
  destruct (s !! df) as [d|] eqn:H.
  - pose proof (validate_columns s df d H) as Hv.
    destruct (has_column "Course Title" d) eqn:H1;
      [destruct (has_column "Staff Name" d) eqn:H2;
       [destruct (has_column "Total Students" d) eqn:H3 |] |];
      try (unfold process_data; by rewrite (bind_return _ _ _ _ _ Hv)).
    assert (Hall : ∀ col, col ∈ required_columns → col ∈ columns d).
    { intros col. unfold required_columns. rewrite !elem_of_cons, elem_of_nil.
      unfold has_column in H1, H2, H3.
      intros [->| [->| [->| []]]]; by eapply bool_decide_eq_true_1. }
    rewrite (process_data_run s df d H Hall). cbv zeta.
    destruct (bool_decide _); [done |].
    edestruct (aggregate_raises
                 ((<[df := normalized parse_number d]> s ++ [cleaned parse_number d])
                  ++ [calculated str_upper parse_number pay_rate number_of_weeks
                        (relevant str_upper parse_number (cleaned parse_number d))]))
      as (e & tail & Hagg).
    + apply lookup_new.
    + apply calculated_has_overload.
    + by rewrite Hagg.
  - unfold process_data, validate, required_columns, for_each.
    assert (Hl : load df s = (Raise NameError, s)) by (unfold load; by rewrite H).
    rewrite ?bind_assoc. by rewrite (bind_raise _ _ _ _ _ Hl).
Qed.

End WholeRun.

(** ** The claims on the whole run *)

(** C1, at a title in lower case. The title "Music 1" names a kind of course
    and its row, the only one with that title, has 30 students; yet the test
    of lines 50-62 looks for a row titled "MUSIC 1", finds none and answers
    no: the row is dropped and the run ends with no relevant course. *)
Theorem lower_case_title_is_not_relevant (parse_number : string → option Qc) :
  keyword "Music 1"
  ∧ (∃ r x,
       head (filter (λ r, get r "Course Title" = Str "Music 1")
               (rows (cleaned parse_number roster_lower))) = Some r
       ∧ get r "Total Students" = Num x ∧ (0 < x)%Qc)
  ∧ is_relevant_course upper parse_number (cleaned parse_number roster_lower)
      (Str "Music 1") = false
  ∧ rows (relevant upper parse_number (cleaned parse_number roster_lower)) = []
  ∧ ∀ pay_rate number_of_weeks,
      (run upper parse_number pay_rate number_of_weeks 0 [roster_lower]).1
      = NoRelevantCourses.
Proof.
  split_and!.
  - left. apply str_in_upper_mentions; reflexivity.
  - eexists _, (Qc_of_Z 30). split_and!; [reflexivity | | done].
    apply (f_equal Num), Qc_is_canon. reflexivity.
  - reflexivity.
  - reflexivity.
  - reflexivity.
Qed.

(** C8, as the code runs. No run returns results, so no non-zero view is
    ever built: line 150 compares the Total Overload column, which holds
    the empty text of the blank rows, with 0, and Python raises TypeError.
    For the roster of scenario A (one course, overload 7) the run ends with
    that error. *)
Theorem non_zero_view_is_never_built :
  (∀ str_upper parse_number pay_rate number_of_weeks s df data totals grand view,
     (run str_upper parse_number pay_rate number_of_weeks df s).1
     ≠ Results data totals grand view)
  ∧ (∀ parse_number,
       (run upper parse_number rate_125 4 0 [roster_A]).1 = ProcessingError TypeError).
Proof.
  split.
  - intros. apply run_gives_no_results.
  - reflexivity.
Qed.

(** C6 fails on the Max Students column: a cell that does not read as a
    number is left missing, not set to zero. *)
Lemma max_students_is_left_missing :
  ∃ r',
    rows (cleaned parse_decimal roster_max) = [r']
    ∧ column "Max Students" (rows roster_max) = [Str "n/a"]
    ∧ parse_decimal "n/a" = None
    ∧ get r' "Max Students" = NaN
    ∧ ¬ (∃ x, get r' "Max Students" = Num x).
Proof.
  eexists. split_and!; [reflexivity | reflexivity | reflexivity | reflexivity |].
  by intros [x Hx].
Qed.

(** C9 fails on the table passed in: after the run its Total Students cell
    holds 0 where the caller's table held the text "n/a". *)
Lemma normalizer_overwrites_its_input :
  ∃ d',
    (run upper parse_decimal rate_125 4 0 [roster_text]).2 !! 0%nat = Some d'
    ∧ column "Total Students" (rows roster_text) = [Str "n/a"]
    ∧ column "Total Students" (rows d') = [Num 0%Qc]
    ∧ d' ≠ roster_text.
Proof.
  eexists. split_and!; [reflexivity | reflexivity | reflexivity |].
  intros Heq. apply (f_equal (λ d, column "Total Students" (rows d))) in Heq.
  vm_compute in Heq. discriminate Heq.
Qed.

Section InPlace.

Context (str_upper : string → string) (parse_number : string → option Qc).
Context (pay_rate : Qc) (number_of_weeks : Z).

(** C9, as the code has it. On a store [s] where [df] names the table [d]:
    the validator changes nothing; the normalizer overwrites [d] in place
    with its normalized form, which has the same columns and as many rows,
    each differing from the original only in Total Students and Max
    Students, and makes one new table; the filter makes one new table;
    the threshold resolver and the overload calculator write their columns
    into the table they are given, in place; the aggregator only makes new
    tables.  After a run on a valid table the store holds the normalized
    table where [d] was, every other old table as it was, and new tables
    after them. *)
Theorem stages_write_in_place_or_make_new (s : store) (df : nat) (d : frame) :
  s !! df = Some d →
  (∃ o, validate df s = (o, s))
  ∧ normalize parse_number df s
    = (Normal (length s),
       <[df := normalized parse_number d]> s ++ [cleaned parse_number d])
  ∧ columns (normalized parse_number d) = columns d
  ∧ length (rows (normalized parse_number d)) = length (rows d)
  ∧ (∀ i r col,
       rows d !! i = Some r → col ≠ "Total Students" → col ≠ "Max Students" →
       ∃ r', rows (normalized parse_number d) !! i = Some r' ∧ r' !! col = r !! col)
  ∧ (∃ o, filter_relevant str_upper parse_number df s = (o, s ++ [relevant str_upper parse_number d]))
  ∧ resolve_thresholds str_upper df s = (Normal tt, <[df := with_thresholds str_upper d]> s)
  ∧ calculate_overload parse_number pay_rate number_of_weeks df s
    = (Normal tt, <[df := with_overload parse_number pay_rate number_of_weeks d]> s)
  ∧ (∃ o tail, aggregate df s = (o, s ++ tail))
  ∧ ((∀ col, col ∈ required_columns → col ∈ columns d) →
     ∃ tail,
       (run str_upper parse_number pay_rate number_of_weeks df s).2
       = <[df := normalized parse_number d]> s ++ cleaned parse_number d :: tail).
Proof.
  intros H. split_and!.
  - rewrite (validate_columns s df d H).
    destruct (has_column "Course Title" d), (has_column "Staff Name" d),
      (has_column "Total Students" d); by eexists.
  - by apply normalize_run.
  - apply normalized_columns.
  - unfold normalized. cbn [foldl]. unfold coerce_column, assign.
    repeat (destruct (has_column _ _); cbn [rows columns]);
      by rewrite ?length_fmap.
  - intros i r col Hr Hts Hms. unfold normalized. cbn [foldl].
    unfold coerce_column, assign.
    repeat (destruct (has_column _ _); cbn [rows columns]);
      rewrite ?list_lookup_fmap, Hr; cbn [fmap option_fmap option_map];
      eexists; (split; [reflexivity |]); by rewrite ?lookup_insert_ne.
  - rewrite (filter_relevant_run str_upper parse_number s df d H). by eexists.
  - by apply resolve_thresholds_run.
  - by apply calculate_overload_run.
  - destruct (aggregate_store s df d H) as (o & tail & Hrun & _). by exists o, tail.
  - intros Hall. unfold run, try_except.
    rewrite (process_data_run str_upper parse_number pay_rate number_of_weeks s df d H Hall).
    cbv zeta. destruct (bool_decide _).
    + eexists. cbn [snd]. by rewrite <- app_assoc.
    + edestruct (aggregate_store
                   ((<[df := normalized parse_number d]> s ++ [cleaned parse_number d])
                    ++ [calculated str_upper parse_number pay_rate number_of_weeks
                          (relevant str_upper parse_number (cleaned parse_number d))]))
        as (o & tail & Hagg & _); [apply lookup_new |].
      rewrite Hagg. eexists.
      destruct o; cbn [snd]; by rewrite <- !app_assoc.
Qed.

End InPlace.

(** ** Where the arithmetic of the machine shows *)



(** ** Instances *)



Lemma normalizer_zero_fills_total_students_only_witness :
  [roster_max] !! 0%nat = Some roster_max
  ∧ has_column "Total Students" roster_max = true
  ∧ rows roster_max !! 0%nat
    = Some (<["Max Students" := Str "n/a"]> (course "ART 1" "J. Doe" (Num (Qc_of_Z 24))))
  ∧ ∃ r' x,
      rows (normalized parse_decimal roster_max) !! 0%nat = Some r'
      ∧ get r' "Total Students" = Num x.
Proof.
  split_and!; [reflexivity | reflexivity | reflexivity |].
  destruct (normalizer_zero_fills_total_students_only parse_decimal
              [roster_max] 0 roster_max 0
              (<["Max Students" := Str "n/a"]> (course "ART 1" "J. Doe" (Num (Qc_of_Z 24))))
              eq_refl eq_refl eq_refl)
    as [_ (r' & x & H1 & H2 & _)].
  by exists r', x.
Defined.

Lemma validate_reports_first_missing_witness :
  [roster_titles_only] !! 0%nat = Some roster_titles_only
  ∧ ∃ missing,
      run upper parse_decimal rate_125 4 0 [roster_titles_only]
      = (MissingColumn missing, [roster_titles_only]).
Proof.
  split; [reflexivity |].
  destruct (validate_reports_first_missing upper parse_decimal rate_125 4
              [roster_titles_only] 0 roster_titles_only eq_refl) as [Hmiss _].
  destruct Hmiss as (missing & before & after & _ & _ & _ & Hrun).
  - exists "Staff Name". split.
    + apply (bool_decide_eq_true_1 ("Staff Name" ∈ required_columns)). reflexivity.
    + apply (bool_decide_eq_false_1 ("Staff Name" ∈ columns roster_titles_only)).
      reflexivity.
  - by exists missing.
Defined.

Lemma stages_write_in_place_or_make_new_witness :
  [roster_text] !! 0%nat = Some roster_text
  ∧ normalize parse_decimal 0 [roster_text]
    = (Normal 1%nat,
       [normalized parse_decimal roster_text; cleaned parse_decimal roster_text]).
Proof.
  split; [reflexivity |].
  destruct (stages_write_in_place_or_make_new upper parse_decimal rate_125 4
              [roster_text] 0 roster_text eq_refl) as (_ & Hnorm & _).
  exact Hnorm.
Defined.
